(** * server.js: CORS admission, request pipeline, health reporter and
      fatal-fault handlers of the maternal-survey backend.

    The development follows the order of [server.js]: the allowed-origin
    list and the [corsOptions.origin] callback, the Express application as
    an ordered list of layers, the two route handlers written in the file,
    the server setup and the two [process.on] fault handlers.

    One place of the file is not JavaScript as it stands: the condition of
    the [if] on lines 27-28 opens a parenthesis that is never closed.  It
    is embedded as the sequence of its tokens, with a parser that rejects
    it and an evaluator for the conditions obtained by adding the missing
    parenthesis; everything after it is stated over an arbitrary
    condition. *)

From Stdlib Require Import String Ascii List ZArith Bool.
Import ListNotations.
Open Scope string_scope.
Open Scope Z_scope.

(** ** JavaScript values

    The fragment of JavaScript values the file manipulates: [undefined],
    [null], booleans, numbers, strings, plain objects as ordered lists of
    own properties (property order is insertion order), and error objects
    with their [name] and [message].  [VNum n] is the Number nearest to the
    integer [n]. *)
Module JS.

#[local] Unset Elimination Schemes.
Inductive value : Type :=
| VUndefined
| VNull
| VBool (b : bool)
| VNum (n : Z)
| VStr (s : string)
| VObj (props : list (string * value))
| VError (name message : string).
#[local] Set Elimination Schemes.

(** Evaluation either completes with a value or throws one. *)
Inductive completion (A : Type) : Type :=
| Normal (a : A)
| Throw (e : value).
Arguments Normal {A} a.
Arguments Throw {A} e.

Definition bind {A B} (c : completion A) (k : A -> completion B) : completion B :=
  match c with
  | Normal a => k a
  | Throw e => Throw e
  end.

Fixpoint lookup (k : string) (props : list (string * value)) : option value :=
  match props with
  | [] => None
  | (k', v) :: rest => if String.eqb k k' then Some v else lookup k rest
  end.

(** [new Error(msg)] and [new TypeError(msg)]. *)
Definition Error (msg : string) : value := VError "Error" msg.

Definition TypeError_ (msg : string) : value := VError "TypeError" msg.

(** The [TypeError] raised by a property read on [undefined] or [null]
    (message in V8's wording). *)
Definition TypeError (what : string) (prop : string) : value :=
  TypeError_ ("Cannot read properties of " ++ what ++ " (reading '" ++ prop ++ "')").

(** The read [v.message].  On [undefined] and [null] it throws; the other
    primitives have no such property on their prototypes; an object gives
    its own property or [undefined]; an error object gives its message. *)
Definition message_of (v : value) : completion value :=
  match v with
  | VUndefined => Throw (TypeError "undefined" "message")
  | VNull => Throw (TypeError "null" "message")
  | VBool _ | VNum _ | VStr _ => Normal VUndefined
  | VObj props =>
      match lookup "message" props with
      | Some x => Normal x
      | None => Normal VUndefined
      end
  | VError _ m => Normal (VStr m)
  end.

(** *** Numbers as strings *)

Definition digit (n : Z) : ascii := ascii_of_nat (48 + Z.to_nat n).

Fixpoint digits_fuel (fuel : nat) (n : Z) (acc : string) : string :=
  match fuel with
  | O => acc
  | S f =>
      let acc' := String (digit (n mod 10)) acc in
      if n / 10 =? 0 then acc' else digits_fuel f (n / 10) acc'
  end.

(** All decimal digits of an integer. *)
Definition Z_to_string (n : Z) : string :=
  if n <? 0 then "-" ++ digits_fuel (S (Z.to_nat (Z.log2 (- n)))) (- n) ""
  else digits_fuel (S (Z.to_nat (Z.log2 n))) n "".

(** The double nearest to a non-negative integer (53 significant bits,
    ties to even), as an integer. *)
Definition nearest_double (n : Z) : Z :=
  let b := Z.log2 n in
  if b <=? 52 then n
  else
    let sh := b - 52 in
    let q := Z.shiftr n sh in
    let r := n - Z.shiftl q sh in
    let half := Z.shiftl 1 (sh - 1) in
    let q' := if (half <? r) || ((r =? half) && Z.odd q) then q + 1 else q in
    Z.shiftl q' sh.

Fixpoint zeros (n : nat) : string :=
  match n with
  | O => ""
  | S k => String "0" (zeros k)
  end.

(** The fewest digits [s] (there are [k] of them) such that [s] followed
    by [n - k] zeros still denotes the double [x], which has [nd] digits:
    the shortest decimal that reads back as [x]. *)
Fixpoint shortest (fuel : nat) (k : Z) (x nd : Z) : Z * Z * Z :=
  match fuel with
  | O => (x, nd, nd)
  | S f =>
      if nd <=? k then (x, nd, nd)
      else
        let base := 10 ^ (nd - k) in
        let lo := x / base in
        let hi := lo + 1 in
        let oklo := (10 ^ (k - 1) <=? lo) && (nearest_double (lo * base) =? x) in
        let okhi := nearest_double (hi * base) =? x in
        let up := if hi =? 10 ^ k then (1, 1, nd + 1) else (hi, k, nd) in
        if oklo && okhi then
          (if (x - lo * base <? hi * base - x)
              || ((x - lo * base =? hi * base - x) && Z.even lo)
           then (lo, k, nd) else up)
        else if oklo then (lo, k, nd)
        else if okhi then up
        else shortest f (k + 1) x nd
  end.

(** [Number::toString] for the double nearest to a positive integer: plain
    digits up to 21 of them, exponent form beyond. *)
Definition positive_to_string (n : Z) : string :=
  let x := nearest_double n in
  if 2 ^ 1024 <=? x then "Infinity"
  else
    let nd := Z.of_nat (String.length (Z_to_string x)) in
    let '(s, k, e) := shortest 17 1 x nd in
    let ds := Z_to_string s in
    if e <=? 21 then ds ++ zeros (Z.to_nat (e - k))
    else
      match ds with
      | EmptyString => ds
      | String d EmptyString => String d ("e+" ++ Z_to_string (e - 1))
      | String d rest => String d ("." ++ rest ++ "e+" ++ Z_to_string (e - 1))
      end.

Definition number_to_string (n : Z) : string :=
  if n =? 0 then "0"
  else if n <? 0 then "-" ++ positive_to_string (- n)
  else positive_to_string n.

(** String conversion as performed by a template literal [`${v}`].  A
    plain object goes through [Object.prototype.toString] unless it has an
    own [toString] property, which a value of this fragment cannot make
    callable: the conversion then throws.  An error object goes through
    [Error.prototype.toString]. *)
Definition to_string (v : value) : completion string :=
  match v with
  | VUndefined => Normal "undefined"
  | VNull => Normal "null"
  | VBool true => Normal "true"
  | VBool false => Normal "false"
  | VNum n => Normal (number_to_string n)
  | VStr s => Normal s
  | VObj props =>
      match lookup "toString" props with
      | Some _ => Throw (TypeError_ "Cannot convert object to primitive value")
      | None => Normal "[object Object]"
      end
  | VError name m =>
      Normal (if String.eqb name "" then m
              else if String.eqb m "" then name
              else name ++ ": " ++ m)
  end.

(** Truthiness, as tested by [!v], [a || b] and [if (v)]. *)
Definition truthy (v : value) : bool :=
  match v with
  | VUndefined | VNull => false
  | VBool b => b
  | VNum n => negb (n =? 0)
  | VStr s => negb (String.eqb s "")
  | VObj _ | VError _ _ => true
  end.

(** [s.replace(/\/$/, '')]: the pattern matches one ['/'] sitting at the
    very end of the input, and [replace] with a non-global pattern rewrites
    that single match. *)
Fixpoint replace_trailing_slash (s : string) : string :=
  match s with
  | EmptyString => EmptyString
  | String c rest =>
      match rest with
      | EmptyString => if Ascii.eqb c "/" then EmptyString else s
      | String _ _ => String c (replace_trailing_slash rest)
      end
  end.

(** [arr.includes(x)] on an array of strings. *)
Definition includes (arr : list string) (x : string) : bool :=
  existsb (String.eqb x) arr.

End JS.


(** ** CORS configuration (server.js lines 18-38) *)

Definition allowedOrigins : list string :=
  [ "http://localhost:5173";
    "https://maternal-survey.vercel.app";
    "https://maternal-survey.vercel.app/" ].

Definition optionsSuccessStatus : Z := 200.

(** *** The condition on lines 27-28, as written

    The text from [if] to the brace that ends line 28, token by token. *)
Module Cond.

Inductive token : Type :=
| t_if
| t_lparen
| t_rparen
| t_bang
| t_oror
| t_dot
| t_comma
| t_lbrace
| t_ident (name : string)
| t_string (s : string)
| t_regex (body : string).

Definition lines_27_28 : list token :=
  [ t_if; t_lparen;
      t_bang; t_ident "origin";
      t_oror;
      t_ident "allowedOrigins"; t_dot; t_ident "includes";
        t_lparen; t_ident "origin"; t_rparen;
      t_oror;
      t_ident "allowedOrigins"; t_dot; t_ident "includes";
        t_lparen; t_ident "origin"; t_dot; t_ident "replace";
          t_lparen; t_regex "\/$"; t_comma; t_string ""; t_rparen;
        t_rparen;
    t_lbrace ].

#[local] Unset Elimination Schemes.
Inductive expr : Type :=
| e_ident (name : string)
| e_string (s : string)
| e_regex (body : string)
| e_not (e : expr)
| e_or (a b : expr)
| e_member (e : expr) (name : string)
| e_call (f : expr) (args : list expr).
#[local] Set Elimination Schemes.

(** A parse ends in a syntax error, in a result, or (never, with the fuel
    given below) in exhausted fuel. *)
Inductive parsed (A : Type) : Type :=
| OutOfFuel
| SyntaxError
| Parsed (a : A).
Arguments OutOfFuel {A}.
Arguments SyntaxError {A}.
Arguments Parsed {A} a.

(** The expression grammar the tokens call for, by recursive descent:
    [||] binds loosest, then prefix [!], then member access and calls;
    the operands are identifiers, literals and parenthesised expressions;
    an argument list may end in a comma. *)
Fixpoint parse_or (fuel : nat) (ts : list token) : parsed (expr * list token) :=
  match fuel with
  | O => OutOfFuel
  | S f =>
      match parse_unary f ts with
      | Parsed (a, rest) => parse_or_tail f a rest
      | SyntaxError => SyntaxError
      | OutOfFuel => OutOfFuel
      end
  end
with parse_or_tail (fuel : nat) (a : expr) (ts : list token)
    : parsed (expr * list token) :=
  match fuel with
  | O => OutOfFuel
  | S f =>
      match ts with
      | t_oror :: rest =>
          match parse_unary f rest with
          | Parsed (b, rest') => parse_or_tail f (e_or a b) rest'
          | SyntaxError => SyntaxError
          | OutOfFuel => OutOfFuel
          end
      | _ => Parsed (a, ts)
      end
  end
with parse_unary (fuel : nat) (ts : list token) : parsed (expr * list token) :=
  match fuel with
  | O => OutOfFuel
  | S f =>
      match ts with
      | t_bang :: rest =>
          match parse_unary f rest with
          | Parsed (e, rest') => Parsed (e_not e, rest')
          | SyntaxError => SyntaxError
          | OutOfFuel => OutOfFuel
          end
      | _ =>
          match parse_primary f ts with
          | Parsed (e, rest) => parse_postfix f e rest
          | SyntaxError => SyntaxError
          | OutOfFuel => OutOfFuel
          end
      end
  end
with parse_primary (fuel : nat) (ts : list token) : parsed (expr * list token) :=
  match fuel with
  | O => OutOfFuel
  | S f =>
      match ts with
      | t_ident name :: rest => Parsed (e_ident name, rest)
      | t_string s :: rest => Parsed (e_string s, rest)
      | t_regex body :: rest => Parsed (e_regex body, rest)
      | t_lparen :: rest =>
          match parse_or f rest with
          | Parsed (e, t_rparen :: rest') => Parsed (e, rest')
          | Parsed _ => SyntaxError
          | SyntaxError => SyntaxError
          | OutOfFuel => OutOfFuel
          end
      | _ => SyntaxError
      end
  end
with parse_postfix (fuel : nat) (e : expr) (ts : list token)
    : parsed (expr * list token) :=
  match fuel with
  | O => OutOfFuel
  | S f =>
      match ts with
      | t_dot :: t_ident name :: rest => parse_postfix f (e_member e name) rest
      | t_dot :: _ => SyntaxError
      | t_lparen :: rest =>
          match parse_args f rest with
          | Parsed (args, rest') => parse_postfix f (e_call e args) rest'
          | SyntaxError => SyntaxError
          | OutOfFuel => OutOfFuel
          end
      | _ => Parsed (e, ts)
      end
  end
with parse_args (fuel : nat) (ts : list token) : parsed (list expr * list token) :=
  match fuel with
  | O => OutOfFuel
  | S f =>
      match ts with
      | t_rparen :: rest => Parsed ([], rest)
      | _ =>
          match parse_or f ts with
          | Parsed (e, t_rparen :: rest) => Parsed ([e], rest)
          | Parsed (e, t_comma :: rest) =>
              match parse_args f rest with
              | Parsed (args, rest') => Parsed (e :: args, rest')
              | SyntaxError => SyntaxError
              | OutOfFuel => OutOfFuel
              end
          | Parsed _ => SyntaxError
          | SyntaxError => SyntaxError
          | OutOfFuel => OutOfFuel
          end
      end
  end.

(** [if ( Expression ) {]: the head of an [if] statement whose consequent
    is a block, which is what line 28 ends in and what the [else] on line
    30 requires. *)
Definition parse_header (ts : list token) : parsed expr :=
  match ts with
  | t_if :: t_lparen :: rest =>
      match parse_or (8 * length ts + 8) rest with
      | Parsed (e, [t_rparen; t_lbrace]) => Parsed e
      | Parsed _ => SyntaxError
      | SyntaxError => SyntaxError
      | OutOfFuel => OutOfFuel
      end
  | _ => SyntaxError
  end.

Definition insert_at {A : Type} (n : nat) (x : A) (l : list A) : list A :=
  firstn n l ++ x :: skipn n l.

Definition delete_at {A : Type} (n : nat) (l : list A) : list A :=
  firstn n l ++ skipn (S n) l.

(** The text with one [)] added in front of token number [n]. *)
Definition closed_at (n : nat) : list token := insert_at n t_rparen lines_27_28.

Definition parses (ts : list token) : bool :=
  match parse_header ts with
  | Parsed _ => true
  | _ => false
  end.

(** The four conditions a single added [)] can produce. *)
Definition origin_ : expr := e_ident "origin".
Definition listed (x : list expr) : expr :=
  e_call (e_member (e_ident "allowedOrigins") "includes") x.
Definition pattern : expr := e_regex "\/$".

(** [!origin || allowedOrigins.includes(origin)
     || allowedOrigins.includes(origin.replace(/\/$/, ''))] *)
Definition closed_at_end : expr :=
  e_or (e_or (e_not origin_) (listed [origin_]))
       (listed [e_call (e_member origin_ "replace") [pattern; e_string ""]]).

(** [... || allowedOrigins.includes(origin).replace(/\/$/, '')] *)
Definition closed_after_origin : expr :=
  e_or (e_or (e_not origin_) (listed [origin_]))
       (e_call (e_member (listed [origin_]) "replace") [pattern; e_string ""]).

(** [... || allowedOrigins.includes(origin.replace)(/\/$/, '')] *)
Definition closed_after_replace : expr :=
  e_or (e_or (e_not origin_) (listed [origin_]))
       (e_call (listed [e_member origin_ "replace"]) [pattern; e_string ""]).

(** [... || allowedOrigins.includes(origin.replace(/\/$/), '')] *)
Definition closed_after_pattern : expr :=
  e_or (e_or (e_not origin_) (listed [origin_]))
       (listed [e_call (e_member origin_ "replace") [pattern]; e_string ""]).

Definition readings : list expr :=
  [ closed_after_origin; closed_after_replace; closed_after_pattern;
    closed_at_end ].

(** *** Evaluation *)

(** What an expression of this fragment can evaluate to: a value, the
    array of allowed origins, a regular expression, or a built-in method
    taken off its object. *)
Inductive rvalue : Type :=
| r_val (v : JS.value)
| r_array (xs : list string)
| r_regex (body : string)
| r_method (name : string).

Definition truthy (r : rvalue) : bool :=
  match r with
  | r_val v => JS.truthy v
  | _ => true
  end.

(** The callee as V8 words it in "... is not a function". *)
Fixpoint show (e : expr) : string :=
  match e with
  | e_ident name => name
  | e_string s => "'" ++ s ++ "'"
  | e_regex body => "/" ++ body ++ "/"
  | e_not a => "!" ++ show a
  | e_or a b => show a ++ " || " ++ show b
  | e_member a name => show a ++ "." ++ name
  | e_call f _ => show f ++ "(...)"
  end.

Definition not_a_function (callee : string) : JS.value :=
  JS.TypeError_ (callee ++ " is not a function").

(** [recv.name] read as a value.  [None]: outside the modelled fragment. *)
Definition member (recv : rvalue) (name : string) : option (JS.completion rvalue) :=
  match recv with
  | r_val JS.VUndefined => Some (JS.Throw (JS.TypeError "undefined" name))
  | r_val JS.VNull => Some (JS.Throw (JS.TypeError "null" name))
  | r_val (JS.VStr _) =>
      if String.eqb name "replace" || String.eqb name "includes"
      then Some (JS.Normal (r_method name)) else None
  | r_array _ =>
      if String.eqb name "includes" then Some (JS.Normal (r_method name))
      else if String.eqb name "replace" then Some (JS.Normal (r_val JS.VUndefined))
      else None
  | r_val (JS.VBool _) | r_regex _ | r_method _ =>
      if String.eqb name "replace" || String.eqb name "includes"
      then Some (JS.Normal (r_val JS.VUndefined)) else None
  | _ => None
  end.

(** [xs.includes(x)] compares with SameValueZero: only a string can equal
    an entry. *)
Definition array_includes (xs : list string) (x : rvalue) : bool :=
  match x with
  | r_val (JS.VStr s) => JS.includes xs s
  | _ => false
  end.

(** [s.replace(/\/$/, repl)] with the replacement converted to a string. *)
Definition replace_slash_with (s repl : string) : string :=
  if String.eqb (JS.replace_trailing_slash s) s then s
  else JS.replace_trailing_slash s ++ repl.

(** The method call [recv.name(args)]; [callee] is the text of
    [recv.name] for the error message.  [None]: outside the modelled
    fragment. *)
Definition invoke (callee : string) (recv : rvalue) (name : string)
    (args : list rvalue) : option (JS.completion rvalue) :=
  match recv, name, args with
  | r_array xs, "includes", [] => Some (JS.Normal (r_val (JS.VBool false)))
  | r_array xs, "includes", [x] =>
      Some (JS.Normal (r_val (JS.VBool (array_includes xs x))))
  | r_array xs, "includes", [x; r_val (JS.VStr "")]
  | r_array xs, "includes", [x; r_val JS.VUndefined] =>
      Some (JS.Normal (r_val (JS.VBool (array_includes xs x))))
  | r_val (JS.VStr s), "replace", [r_regex "\/$"; r_val (JS.VStr "")] =>
      Some (JS.Normal (r_val (JS.VStr (JS.replace_trailing_slash s))))
  | r_val (JS.VStr s), "replace", [r_regex "\/$"] =>
      Some (JS.Normal (r_val (JS.VStr (replace_slash_with s "undefined"))))
  | r_val (JS.VBool _), _, _ | r_regex _, _, _ | r_method _, _, _
  | r_array _, "replace", _ =>
      if String.eqb name "replace" || String.eqb name "includes"
      then Some (JS.Throw (not_a_function callee)) else None
  | _, _, _ => None
  end.

Section Eval.

Variable allowed : list string.
Variable origin : option string.

Definition of_header (h : option string) : JS.value :=
  match h with
  | None => JS.VUndefined
  | Some s => JS.VStr s
  end.

Definition variable (name : string) : option rvalue :=
  if String.eqb name "origin" then Some (r_val (of_header origin))
  else if String.eqb name "allowedOrigins" then Some (r_array allowed)
  else None.

Definition is_nullish (r : rvalue) : bool :=
  match r with
  | r_val JS.VUndefined | r_val JS.VNull => true
  | _ => false
  end.

(** Left to right; [||] evaluates its right operand only when the left
    one is falsy; a call reads the callee, then the arguments, then calls,
    and calling what is not a function throws.  [None]: the expression
    leaves the modelled fragment (a built-in method called without its
    object, for one). *)
Fixpoint eval (e : expr) : option (JS.completion rvalue) :=
  let fix eval_args (es : list expr) : option (JS.completion (list rvalue)) :=
    match es with
    | [] => Some (JS.Normal [])
    | x :: rest =>
        match eval x with
        | Some (JS.Normal v) =>
            match eval_args rest with
            | Some (JS.Normal vs) => Some (JS.Normal (v :: vs))
            | other => other
            end
        | Some (JS.Throw t) => Some (JS.Throw t)
        | None => None
        end
    end in
  match e with
  | e_ident name =>
      match variable name with
      | Some r => Some (JS.Normal r)
      | None => None
      end
  | e_string s => Some (JS.Normal (r_val (JS.VStr s)))
  | e_regex body => Some (JS.Normal (r_regex body))
  | e_not a =>
      match eval a with
      | Some (JS.Normal r) => Some (JS.Normal (r_val (JS.VBool (negb (truthy r)))))
      | other => other
      end
  | e_or a b =>
      match eval a with
      | Some (JS.Normal r) => if truthy r then Some (JS.Normal r) else eval b
      | other => other
      end
  | e_member a name =>
      match eval a with
      | Some (JS.Normal r) => member r name
      | other => other
      end
  | e_call (e_member a name) args =>
      match eval a with
      | Some (JS.Normal r) =>
          if is_nullish r then member r name
          else
            match eval_args args with
            | Some (JS.Normal vs) => invoke (show a ++ "." ++ name) r name vs
            | Some (JS.Throw t) => Some (JS.Throw t)
            | None => None
            end
      | other => other
      end
  | e_call f args =>
      match eval f with
      | Some (JS.Normal (r_method _)) => None
      | Some (JS.Normal _) =>
          match eval_args args with
          | Some (JS.Normal _) => Some (JS.Throw (not_a_function (show f)))
          | Some (JS.Throw t) => Some (JS.Throw t)
          | None => None
          end
      | other => other
      end
  end.

(** The condition as the [if] tests it.  The last case does not arise for
    the conditions of [readings] (lemma [readings_modelled]). *)
Definition test (e : expr) : JS.completion bool :=
  match eval e with
  | Some (JS.Normal r) => JS.Normal (truthy r)
  | Some (JS.Throw t) => JS.Throw t
  | None => JS.Throw JS.VUndefined
  end.

End Eval.

End Cond.


(** *** The origin callback around the condition (lines 25-33) *)
Section Admission.

(** The condition of the [if].  The text of lines 27-28 does not determine
    one, so it is a variable here: a function of the [origin] argument
    that yields the truth value tested, or throws. *)
Variable condition : option string -> JS.completion bool.

(** [corsOptions.origin], in continuation-passing style as written:
    [callback(null, true)] when the condition holds,
    [callback(new Error(...))] otherwise (second argument left
    [undefined]); an exception of the condition leaves the function. *)
Definition origin_with {R : Type} (origin : option string)
    (callback : JS.value -> JS.value -> R) : JS.completion R :=
  JS.bind (condition origin) (fun holds =>
    JS.Normal
      (if holds
       then callback JS.VNull (JS.VBool true)
       else callback (JS.Error "Not allowed by CORS") JS.VUndefined)).

End Admission.

(** How the [cors] middleware reads the callback's arguments
    ([if (err || !origin) next(err) else ...]): a truthy first argument
    rejects the request with that error; otherwise a truthy second argument
    lets it in, and a falsy one lets it through without CORS headers. *)
Inductive verdict : Type :=
| Allowed
| Unmarked
| Refused (err : JS.value).

Definition read_callback (err allow : JS.value) : verdict :=
  if JS.truthy err then Refused err
  else if JS.truthy allow then Allowed
  else Unmarked.

(** The condition a parsed expression denotes over the configured list. *)
Definition reading (e : Cond.expr) (origin : option string) : JS.completion bool :=
  Cond.test allowedOrigins origin e.

(** ** Dates: [new Date().toISOString()]

    A [Date] is a count of milliseconds since the epoch. *)
Module Date.

Definition ms_per_day : Z := 86400000.

(** Proleptic Gregorian date [(year, month, day)] of a day number counted
    from 1970-01-01. *)
Definition civil_of_days (days : Z) : Z * Z * Z :=
  let z := days + 719468 in
  let era := z / 146097 in
  let doe := z - era * 146097 in
  let yoe := (doe - doe / 1460 + doe / 36524 - doe / 146096) / 365 in
  let doy := doe - (365 * yoe + yoe / 4 - yoe / 100) in
  let mp := (5 * doy + 2) / 153 in
  let d := doy - (153 * mp + 2) / 5 + 1 in
  let m := if mp <? 10 then mp + 3 else mp - 9 in
  let y := yoe + era * 400 in
  (if m <=? 2 then y + 1 else y, m, d).

Fixpoint zeros (n : nat) : string :=
  match n with
  | O => ""
  | S k => String "0" (zeros k)
  end.

(** Non-negative [n] in decimal, left-padded with zeros to [width]. *)
Definition pad (width : nat) (n : Z) : string :=
  let ds := JS.Z_to_string n in
  zeros (width - String.length ds) ++ ds.

(** Years 0..9999 print with four digits, the others with a sign and six. *)
Definition year_string (y : Z) : string :=
  if (0 <=? y) && (y <=? 9999) then pad 4 y
  else if y <? 0 then "-" ++ pad 6 (- y)
  else "+" ++ pad 6 y.

Definition toISOString (t : Z) : string :=
  let '(y, m, d) := civil_of_days (t / ms_per_day) in
  let r := t mod ms_per_day in
  year_string y ++ "-" ++ pad 2 m ++ "-" ++ pad 2 d ++ "T" ++
  pad 2 (r / 3600000) ++ ":" ++ pad 2 (r / 60000 mod 60) ++ ":" ++
  pad 2 (r / 1000 mod 60) ++ "." ++ pad 3 (r mod 1000) ++ "Z".

End Date.

(** ** HTTP requests and responses *)

Inductive method : Type := GET | HEAD | POST | PUT | DELETE | PATCH | OPTIONS.

(** [path] is the pathname of [req.url]; [headers] is [req.headers], with
    lower-cased names; [body] is the raw payload. *)
Record request : Type := {
  req_method : method;
  path : string;
  headers : list (string * string);
  body : string
}.

Fixpoint header (name : string) (hs : list (string * string)) : option string :=
  match hs with
  | [] => None
  | (k, v) :: rest => if String.eqb name k then Some v else header name rest
  end.

Definition with_path (r : request) (p : string) : request :=
  {| req_method := req_method r; path := p; headers := headers r; body := body r |}.

(** The part of [res] the handlers of this file write: the status code and
    the JSON payload.  Response headers are not modelled. *)
Record response : Type := {
  statusCode : Z;
  payload : option JS.value
}.

Definition fresh_res : response := {| statusCode := 200; payload := None |}.

(** [res.status(code)] and [res.json(obj)], both chainable. *)
Definition status (code : Z) (res : response) : response :=
  {| statusCode := code; payload := payload res |}.

Definition json (obj : JS.value) (res : response) : response :=
  {| statusCode := statusCode res; payload := Some obj |}.

(** ** The Express application (server.js lines 40-88) *)

(** The routers required on lines 50-53; their code is outside this file. *)
Inductive collaborator : Type :=
| surveyRoutes
| authRoutes
| analyticsRoutes
| responseRoute.

(** What a middleware does with a request: call [next()], call
    [next(err)], or end the response. *)
Inductive step : Type :=
| Next
| NextErr (err : JS.value)
| End_ (res : response).

(** How the application disposes of a request.  [Delegated c url]: router
    [c] is entered with [req.url] rewritten to [url].  [ErrorHandled e]:
    [errorHandler.errorHandler] is entered with error [e].  [Fallthrough e]:
    no layer of the application took the request (Express answers itself:
    404, or 500 when an error [e] is pending). *)
Inductive outcome : Type :=
| Responded (res : response)
| Delegated (c : collaborator) (url : string)
| ErrorHandled (err : JS.value)
| Fallthrough (err : option JS.value).

Inductive layer : Type :=
| use (mw : request -> step)                       (* app.use(fn) *)
| options_all (mw : request -> step)               (* app.options('*', fn) *)
| use_at (prefix : string) (c : collaborator)      (* app.use(prefix, router) *)
| get (pattern : string) (h : request -> response -> response)
                                                   (* app.get(path, fn) *)
| use_error.                                       (* app.use(errorHandler) *)

(** Route matching with Express' defaults: case-insensitive, a trailing
    slash is optional, and a mounted prefix must end on a segment
    boundary. *)
Definition lower (c : ascii) : ascii :=
  let n := nat_of_ascii c in
  if ((65 <=? n) && (n <=? 90))%nat then ascii_of_nat (n + 32) else c.

Fixpoint strip_prefix (prefix p : string) : option string :=
  match prefix with
  | EmptyString => Some p
  | String a prefix' =>
      match p with
      | EmptyString => None
      | String b p' =>
          if Ascii.eqb (lower a) (lower b) then strip_prefix prefix' p' else None
      end
  end.

(** What is left of the pathname once a mounted prefix is removed, when
    the prefix ends on a boundary: the matched part takes one following
    ['/'] if what comes next is again a boundary, and the remainder always
    starts with ['/']. *)
Definition boundary (rest : string) : option string :=
  match rest with
  | EmptyString => Some "/"
  | String "/" EmptyString => Some "/"
  | String "/" (String "/" _ as rest') => Some rest'
  | String "/" _ => Some rest
  | String _ _ => None
  end.

Definition mount_match (prefix p : string) : option string :=
  match strip_prefix prefix p with
  | Some rest => boundary rest
  | None => None
  end.

Definition route_match (pattern p : string) : bool :=
  match strip_prefix (JS.replace_trailing_slash pattern) p with
  | Some EmptyString => true
  | Some (String "/" EmptyString) => true
  | _ => false
  end.

(** [app.get] routes also answer [HEAD]. *)
Definition handles_get (m : method) : bool :=
  match m with
  | GET | HEAD => true
  | _ => false
  end.

(** Once [next(err)] was called only error-handling middleware runs. *)
Fixpoint run_error (ls : list layer) (err : JS.value) : outcome :=
  match ls with
  | [] => Fallthrough (Some err)
  | use_error :: _ => ErrorHandled err
  | _ :: rest => run_error rest err
  end.

(** Layers run in registration order. *)
Fixpoint run (ls : list layer) (r : request) : outcome :=
  let after (s : step) (rest : list layer) : outcome :=
    match s with
    | Next => run rest r
    | NextErr e => run_error rest e
    | End_ res => Responded res
    end in
  match ls with
  | [] => Fallthrough None
  | use mw :: rest => after (mw r) rest
  | options_all mw :: rest =>
      match req_method r with
      | OPTIONS => after (mw r) rest
      | _ => run rest r
      end
  | use_at prefix c :: rest =>
      match mount_match prefix (path r) with
      | Some url => Delegated c url
      | None => run rest r
      end
  | get pattern h :: rest =>
      if handles_get (req_method r) && route_match pattern (path r)
      then Responded (h r fresh_res)
      else run rest r
  | use_error :: rest => run rest r
  end.

(** [cors(corsOptions)]: ask [corsOptions.origin] about the request's
    [Origin] header; a rejection goes to [next(err)]; a preflight that is
    let in is answered at once with [optionsSuccessStatus]; anything else
    continues down the stack.  An exception thrown by the origin function
    leaves the middleware, and Express passes it to [next(err)]. *)
Definition cors
    (origin_fn : option string -> (JS.value -> JS.value -> step) -> JS.completion step)
    (r : request) : step :=
  match
    origin_fn (header "origin" (headers r))
      (fun err allow =>
         match read_callback err allow with
         | Refused e => NextErr e
         | Unmarked => Next
         | Allowed =>
             match req_method r with
             | OPTIONS => End_ (status optionsSuccessStatus fresh_res)
             | _ => Next
             end
         end)
  with
  | JS.Normal s => s
  | JS.Throw e => NextErr e
  end.

(** The state the handlers read besides the request:
    [mongoose.connection.readyState] and the clock behind [new Date()]. *)
Record world : Type := {
  readyState : Z;
  now : Z
}.

(** Lines 63-70. *)
Definition health (w : world) (req : request) (res : response) : response :=
  json (JS.VObj [
      ("status", JS.VStr "ok");
      ("database",
         JS.VStr (if readyState w =? 1 then "connected" else "disconnected"));
      ("version", JS.VStr "1.0.0");
      ("timestamp", JS.VStr (Date.toISOString (now w)))
    ]) (status 200 res).

(** Lines 73-85. *)
Definition welcome (req : request) (res : response) : response :=
  json (JS.VObj [
      ("message", JS.VStr "Maternal Survey API");
      ("version", JS.VStr "1.0.0");
      ("endpoints", JS.VObj [
          ("survey", JS.VStr "/api/v1/responses");
          ("auth", JS.VStr "/api/v1/auth");
          ("analytics", JS.VStr "/api/v1/analytics");
          ("advanced", JS.VStr "/api/v1/adv")
        ]);
      ("documentation", JS.VStr "https://github.com/your-repo/docs")
    ]) (status 200 res).

(** Lines 56-88: the mounted routers, the two routes and the error
    handler, in registration order. *)
Definition routes (w : world) : list layer :=
  [ use_at "/api/v1/responses" surveyRoutes;
    use_at "/api/v1/auth" authRoutes;
    use_at "/api/v1/analytics" analyticsRoutes;
    use_at "/api/v1/adv" analyticsRoutes;
    use_at "/api/v1/surveys" responseRoute;
    get "/api/health" (health w);
    get "/" welcome;
    use_error ].

(** The router a pathname is dispatched to by the mounted prefixes alone,
    with the URL that router sees. *)
Fixpoint mounted (ls : list layer) (p : string) : option (collaborator * string) :=
  match ls with
  | [] => None
  | use_at prefix c :: rest =>
      match mount_match prefix p with
      | Some url => Some (c, url)
      | None => mounted rest p
      end
  | _ :: rest => mounted rest p
  end.

Section App.

(** The condition of lines 27-28, whatever it is. *)
Variable condition : option string -> JS.completion bool.

(** [express.json()] and [express.urlencoded({ extended: true })] are
    library middleware: they read the headers and the body, and either
    continue or fail the request with an error. *)
Variables json_parser urlencoded_parser :
  list (string * string) -> string -> option JS.value.

Definition corsOptions_origin {R : Type} :
    option string -> (JS.value -> JS.value -> R) -> JS.completion R :=
  origin_with condition.

Definition body_parser
    (parse : list (string * string) -> string -> option JS.value)
    (r : request) : step :=
  match parse (headers r) (body r) with
  | None => Next
  | Some e => NextErr e
  end.

(** Lines 40-88: the whole stack. *)
Definition app (w : world) : list layer :=
  use (cors corsOptions_origin)
  :: options_all (cors corsOptions_origin)
  :: use (body_parser json_parser)
  :: use (body_parser urlencoded_parser)
  :: routes w.

Definition handle (w : world) (r : request) : outcome := run (app w) r.

End App.

(** ** Process lifecycle (server.js lines 101-111) *)

(** The statements the fault handlers execute.  The callback handed to
    [server.close] is kept as the statements of its body. *)
#[local] Unset Elimination Schemes.
Inductive stmt : Type :=
| console_error (line : string)
| server_close (callback : list stmt)
| process_exit (code : Z).
#[local] Set Elimination Schemes.

(** What an observer of the process sees, in order of occurrence. *)
Inductive effect : Type :=
| Logged (line : string)
| CloseRequested
| Exited (code : Z).

Inductive listener_state : Type := Listening | Closing | Closed.

(** [on_close] holds the callbacks waiting for the listener's ['close']
    event; [exit_code] is set once the process has terminated. *)
Record process : Type := {
  trace : list effect;
  listener : listener_state;
  on_close : list (list stmt);
  exit_code : option Z
}.

Definition booted : process :=
  {| trace := []; listener := Listening; on_close := []; exit_code := None |}.

Definition exec1 (p : process) (s : stmt) : process :=
  match s with
  | console_error line =>
      {| trace := trace p ++ [Logged line]; listener := listener p;
         on_close := on_close p; exit_code := exit_code p |}
  | server_close callback =>
      {| trace := trace p ++ [CloseRequested];
         listener := match listener p with Listening => Closing | l => l end;
         on_close := on_close p ++ [callback]; exit_code := exit_code p |}
  | process_exit code =>
      {| trace := trace p ++ [Exited code]; listener := listener p;
         on_close := on_close p; exit_code := Some code |}
  end.

(** Statements run in sequence; nothing runs after [process.exit]. *)
Fixpoint exec (p : process) (body : list stmt) : process :=
  match exit_code p with
  | Some _ => p
  | None =>
      match body with
      | [] => p
      | s :: rest => exec (exec1 p s) rest
      end
  end.

Fixpoint exec_all (p : process) (callbacks : list (list stmt)) : process :=
  match callbacks with
  | [] => p
  | cb :: rest => exec_all (exec p cb) rest
  end.

(** The two listeners.  The template literal reads [err.message] and
    converts it to a string before anything is printed, so a throwing read
    or conversion leaves the body unexecuted. *)
Definition on_unhandledRejection (err : JS.value) : JS.completion (list stmt) :=
  JS.bind (JS.message_of err) (fun m =>
  JS.bind (JS.to_string m) (fun text =>
    JS.Normal
      [ console_error ("❗ Unhandled Rejection: " ++ text);
        server_close [ process_exit 1 ] ])).

Definition on_uncaughtException (err : JS.value) : JS.completion (list stmt) :=
  JS.bind (JS.message_of err) (fun m =>
  JS.bind (JS.to_string m) (fun text =>
    JS.Normal
      [ console_error ("❗ Uncaught Exception: " ++ text);
        server_close [ process_exit 1 ] ])).

(** What can happen to the running process: one of the two fatal triggers
    with the value that was rejected or thrown, or the listener finishing
    its shutdown. *)
Inductive event : Type :=
| unhandledRejection (reason : JS.value)
| uncaughtException (err : JS.value)
| listener_closed.

(** One event, as Node delivers it.  A terminated process reacts to
    nothing.  An exception thrown by the [unhandledRejection] listener is
    itself an uncaught exception and goes to the [uncaughtException]
    listener.  When that listener throws, Node gives up: the result is
    [Throw] with the exception, and the process ends there with Node's exit
    code for a failing exception handler (see [exit_status]); nothing of
    the listener's body has run. *)
Definition react (p : process) (ev : event) : JS.completion process :=
  match exit_code p with
  | Some _ => JS.Normal p
  | None =>
      match ev with
      | unhandledRejection reason =>
          match on_unhandledRejection reason with
          | JS.Normal b => JS.Normal (exec p b)
          | JS.Throw e =>
              JS.bind (on_uncaughtException e) (fun b => JS.Normal (exec p b))
          end
      | uncaughtException err =>
          JS.bind (on_uncaughtException err) (fun b => JS.Normal (exec p b))
      | listener_closed =>
          match listener p with
          | Closing =>
              JS.Normal
                (exec_all {| trace := trace p; listener := Closed;
                             on_close := []; exit_code := exit_code p |}
                          (on_close p))
          | _ => JS.Normal p
          end
      end
  end.

Fixpoint react_all (p : process) (evs : list event) : JS.completion process :=
  match evs with
  | [] => JS.Normal p
  | ev :: rest => JS.bind (react p ev) (fun p' => react_all p' rest)
  end.

(** The exit code of a run: the one passed to [process.exit], or 7 when an
    exception handler itself threw. *)
Definition exit_status (c : JS.completion process) : option Z :=
  match c with
  | JS.Normal p => exit_code p
  | JS.Throw _ => Some 7
  end.

(** ** Observations used in the statements *)

(** The verdict of the callback on an [Origin] header, and the admission
    predicate of the specification, under a given condition. *)
Definition verdict_under (condition : option string -> JS.completion bool)
    (origin : option string) : JS.completion verdict :=
  origin_with condition origin read_callback.

Definition is_allowed_under (condition : option string -> JS.completion bool)
    (origin : option string) : bool :=
  match verdict_under condition origin with
  | JS.Normal Allowed => true
  | _ => false
  end.

Definition cors_error : JS.value := JS.Error "Not allowed by CORS".

(** The exceptions of the two conditions that call what [includes]
    returned. *)
Definition replace_of_boolean : JS.value :=
  Cond.not_a_function "allowedOrigins.includes(...).replace".

Definition call_of_boolean : JS.value :=
  Cond.not_a_function "allowedOrigins.includes(...)".

(** A property of a JSON response, when the outcome is a response with an
    object payload. *)
Definition field (name : string) (o : outcome) : option JS.value :=
  match o with
  | Responded {| payload := Some (JS.VObj props) |} => JS.lookup name props
  | _ => None
  end.

Definition keys (v : JS.value) : list string :=
  match v with
  | JS.VObj props => map fst props
  | _ => []
  end.

Fixpoint remove_key (name : string) (props : list (string * JS.value))
    : list (string * JS.value) :=
  match props with
  | [] => []
  | (k, v) :: rest =>
      if String.eqb name k then remove_key name rest
      else (k, v) :: remove_key name rest
  end.

(** An outcome with the [timestamp] property of its payload dropped. *)
Definition without_timestamp (o : outcome) : outcome :=
  match o with
  | Responded {| statusCode := c; payload := Some (JS.VObj props) |} =>
      Responded {| statusCode := c;
                   payload := Some (JS.VObj (remove_key "timestamp" props)) |}
  | _ => o
  end.

(** The payloads the two routes are specified to send. *)
Definition health_payload (database timestamp : string) : JS.value :=
  JS.VObj [ ("status", JS.VStr "ok");
            ("database", JS.VStr database);
            ("version", JS.VStr "1.0.0");
            ("timestamp", JS.VStr timestamp) ].

Definition welcome_payload : JS.value :=
  JS.VObj [ ("message", JS.VStr "Maternal Survey API");
            ("version", JS.VStr "1.0.0");
            ("endpoints",
               JS.VObj [ ("survey", JS.VStr "/api/v1/responses");
                         ("auth", JS.VStr "/api/v1/auth");
                         ("analytics", JS.VStr "/api/v1/analytics");
                         ("advanced", JS.VStr "/api/v1/adv") ]);
            ("documentation", JS.VStr "https://github.com/your-repo/docs") ].

Definition ok_json (v : JS.value) : outcome :=
  Responded {| statusCode := 200; payload := Some v |}.

(** A request passes the gate in front of the routes when the condition
    holds of its origin, it is not a preflight, and both body parsers let
    it through. *)
Definition passes_gate
    (condition : option string -> JS.completion bool)
    (jp up : list (string * string) -> string -> option JS.value)
    (r : request) : Prop :=
  condition (header "origin" (headers r)) = JS.Normal true
  /\ req_method r <> OPTIONS
  /\ jp (headers r) (body r) = None
  /\ up (headers r) (body r) = None.

(** The callback both fault handlers give to [server.close]. *)
Definition exit_one : list stmt := [process_exit 1].

(** The trace left by fault handlers that ran to completion: each one
    logged a line and then asked the listener to close. *)
Definition announced (lines : list string) : list effect :=
  flat_map (fun line => [Logged line; CloseRequested]) lines.

(** The shape every process state reachable from [booted] has. *)
Definition well_shaped (p : process) : Prop :=
  (exists lines,
      trace p = (announced lines
                 ++ match exit_code p with Some c => [Exited c] | None => [] end)%list)
  /\ (exit_code p = None \/ exit_code p = Some 1)
  /\ Forall (eq exit_one) (on_close p)
  /\ (listener p = Listening -> trace p = [] /\ on_close p = [])
  /\ (listener p = Closing -> on_close p <> [] /\ exit_code p = None)
  /\ (listener p = Closed -> exit_code p = Some 1).

(** Whether the [uncaughtException] listener fails on a value. *)
Definition unrenderable (err : JS.value) : bool :=
  match on_uncaughtException err with
  | JS.Throw _ => true
  | JS.Normal _ => false
  end.

Definition breaks_listener (ev : event) : bool :=
  match ev with
  | uncaughtException err => unrenderable err
  | _ => false
  end.

(** Sample inputs. *)
Definition accept_body (_ : list (string * string)) (_ : string)
    : option JS.value := None.

(** A condition that holds of requests without an [Origin] header only,
    and one that holds of none. *)
Definition absent_only (origin : option string) : JS.completion bool :=
  JS.Normal (match origin with None => true | Some _ => false end).

Definition nobody (_ : option string) : JS.completion bool := JS.Normal false.

Definition db_up : world := {| readyState := 1; now := 1700000000000 |}.
Definition db_down : world := {| readyState := 0; now := 1700000000000 |}.
Definition later_up : world := {| readyState := 1; now := 1700000060000 |}.

Definition plain_get (p : string) : request :=
  {| req_method := GET; path := p; headers := []; body := "" |}.

Definition get_from (origin p : string) : request :=
  {| req_method := GET; path := p; headers := [("origin", origin)]; body := "" |}.

(** ** Server setup (server.js lines 91-94) *)

(** [process.env.NAME]: [undefined] when the variable is unset, its text
    otherwise. *)
Definition of_env (v : option string) : JS.value :=
  match v with
  | None => JS.VUndefined
  | Some s => JS.VStr s
  end.

(** [a || b]. *)
Definition or_else (a b : JS.value) : JS.value :=
  if JS.truthy a then a else b.

(** [process.env.PORT || 5000] and [process.env.NODE_ENV || 'development']. *)
Definition PORT (env : string -> option string) : JS.value :=
  or_else (of_env (env "PORT")) (JS.VNum 5000).

Definition mode_label (env : string -> option string) : JS.value :=
  or_else (of_env (env "NODE_ENV")) (JS.VStr "development").

(** ** Further observations *)

(** The prefixes routers are mounted on, with their routers, in order. *)
Fixpoint mount_points (ls : list layer) : list (string * collaborator) :=
  match ls with
  | [] => []
  | use_at prefix c :: rest => (prefix, c) :: mount_points rest
  | _ :: rest => mount_points rest
  end.

(** The stack of [app] with line 43, [app.options('*', cors(corsOptions))],
    left out. *)
Definition app_without_line_43
    (condition : option string -> JS.completion bool)
    (jp up : list (string * string) -> string -> option JS.value)
    (w : world) : list layer :=
  use (cors (origin_with condition))
  :: use (body_parser jp)
  :: use (body_parser up)
  :: routes w.

Definition is_fault (ev : event) : bool :=
  match ev with
  | listener_closed => false
  | _ => true
  end.

Definition exits (e : effect) : bool :=
  match e with
  | Exited _ => true
  | _ => false
  end.

(** * Properties *)

(** ** Strings and lists *)

Lemma includes_In (arr : list string) (x : string) :
  JS.includes arr x = true <-> In x arr.
Proof.
  unfold JS.includes. rewrite existsb_exists. split.
  - intros [y [Hin Heq]]. apply String.eqb_eq in Heq. now subst.
  - intros Hin. exists x. split; [assumption | apply String.eqb_refl].
Qed.

Lemma includes_not_In (arr : list string) (x : string) :
  ~ In x arr -> JS.includes arr x = false.
Proof.
  intros Hn. destruct (JS.includes arr x) eqn:E; [|reflexivity].
  apply includes_In in E. contradiction.
Qed.

Lemma replace_trailing_slash_app (s : string) :
  JS.replace_trailing_slash (s ++ "/") = s.
Proof.
  induction s as [|c s IH]; [reflexivity|].
  change (String c s ++ "/") with (String c (s ++ "/")).
  destruct s as [|d s]; [reflexivity|].
  change (String d s ++ "/") with (String d (s ++ "/")) in *.
  cbn [JS.replace_trailing_slash] in *. now rewrite IH.
Qed.

Lemma truthy_string (s : string) :
  s <> "" -> JS.truthy (JS.VStr s) = true.
Proof.
  intros Hne. cbn. destruct (String.eqb s "") eqn:E; [|reflexivity].
  apply String.eqb_eq in E. contradiction.
Qed.

(** ** Lines 27-28 *)

(** The text as written is not the head of an [if] statement. *)
Lemma source_not_parsed :
  Cond.parse_header Cond.lines_27_28 = Cond.SyntaxError.
Proof. vm_compute. reflexivity. Qed.

(** With one [)] added it is one at six places, which give four
    conditions; closing right before the brace (place 25) or before either
    of the two [)] that end line 28 gives the same text. *)
Lemma readings_parsed :
  filter (fun n => Cond.parses (Cond.closed_at n)) (seq 0 27)
    = [17; 19; 21; 23; 24; 25]%nat
  /\ map (fun n => Cond.parse_header (Cond.closed_at n)) [17; 19; 21; 23; 24; 25]%nat
     = map Cond.Parsed
         [ Cond.closed_after_origin; Cond.closed_after_replace;
           Cond.closed_after_pattern;
           Cond.closed_at_end; Cond.closed_at_end; Cond.closed_at_end ].
Proof. split; vm_compute; reflexivity. Qed.

Lemma in_readings (e : Cond.expr) :
  In e Cond.readings ->
  e = Cond.closed_after_origin \/ e = Cond.closed_after_replace
  \/ e = Cond.closed_after_pattern \/ e = Cond.closed_at_end.
Proof. cbn. intuition. Qed.

Ltac each_reading H :=
  apply in_readings in H;
  destruct H as [H | [H | [H | H]]]; subst.

(** Every reading starts with [!origin || allowedOrigins.includes(origin)],
    which settles the test for an absent, an empty and a listed origin. *)
Lemma test_absent (allowed : list string) (e : Cond.expr) :
  In e Cond.readings -> Cond.test allowed None e = JS.Normal true.
Proof. intros H. each_reading H; reflexivity. Qed.

Lemma test_empty (allowed : list string) (e : Cond.expr) :
  In e Cond.readings -> Cond.test allowed (Some "") e = JS.Normal true.
Proof. intros H. each_reading H; reflexivity. Qed.

Lemma test_at_end (allowed : list string) (o : string) :
  Cond.test allowed (Some o) Cond.closed_at_end
  = JS.Normal (negb (JS.truthy (JS.VStr o))
               || JS.includes allowed o
               || JS.includes allowed (JS.replace_trailing_slash o)).
Proof.
  unfold Cond.test, Cond.closed_at_end, Cond.listed, Cond.origin_, Cond.pattern.
  cbn. destruct (String.eqb o ""); cbn; [reflexivity|].
  destruct (JS.includes allowed o); cbn; [reflexivity|].
  destruct (JS.includes allowed (JS.replace_trailing_slash o)); reflexivity.
Qed.

Lemma test_after_pattern (allowed : list string) (o : string) :
  Cond.test allowed (Some o) Cond.closed_after_pattern
  = JS.Normal (negb (JS.truthy (JS.VStr o))
               || JS.includes allowed o
               || JS.includes allowed (Cond.replace_slash_with o "undefined")).
Proof.
  unfold Cond.test, Cond.closed_after_pattern, Cond.listed, Cond.origin_,
    Cond.pattern.
  cbn. destruct (String.eqb o ""); cbn; [reflexivity|].
  destruct (JS.includes allowed o); cbn; [reflexivity|].
  destruct (JS.includes allowed (Cond.replace_slash_with o "undefined"));
    reflexivity.
Qed.

(** In the two readings that call the result of [includes], the third
    operand throws whenever it is reached. *)
Lemma test_after_origin (allowed : list string) (o : string) :
  Cond.test allowed (Some o) Cond.closed_after_origin
  = if negb (JS.truthy (JS.VStr o)) || JS.includes allowed o
    then JS.Normal true else JS.Throw replace_of_boolean.
Proof.
  unfold Cond.test, Cond.closed_after_origin, Cond.listed, Cond.origin_,
    Cond.pattern.
  cbn. destruct (String.eqb o ""); cbn; try reflexivity.
  destruct (JS.includes allowed o); reflexivity.
Qed.

Lemma test_after_replace (allowed : list string) (o : string) :
  Cond.test allowed (Some o) Cond.closed_after_replace
  = if negb (JS.truthy (JS.VStr o)) || JS.includes allowed o
    then JS.Normal true else JS.Throw call_of_boolean.
Proof.
  unfold Cond.test, Cond.closed_after_replace, Cond.listed, Cond.origin_,
    Cond.pattern.
  cbn. destruct (String.eqb o ""); cbn; try reflexivity.
  destruct (JS.includes allowed o); reflexivity.
Qed.

(** Evaluation of the four conditions never leaves the modelled
    fragment. *)
Lemma readings_modelled (allowed : list string) (o : option string)
    (e : Cond.expr) :
  In e Cond.readings -> Cond.eval allowed o e <> None.
Proof.
  intros H. destruct o as [o|]; [|each_reading H; discriminate].
  each_reading H;
    unfold Cond.closed_after_origin, Cond.closed_after_replace,
      Cond.closed_after_pattern, Cond.closed_at_end,
      Cond.listed, Cond.origin_, Cond.pattern;
    cbn; destruct (String.eqb o ""); cbn; try discriminate;
    destruct (JS.includes allowed o); cbn; try discriminate;
    match goal with
    | |- context [JS.includes allowed ?s] =>
        destruct (JS.includes allowed s); discriminate
    end.
Qed.

Lemma test_listed (allowed : list string) (o : string) (e : Cond.expr) :
  In e Cond.readings -> In o allowed ->
  Cond.test allowed (Some o) e = JS.Normal true.
Proof.
  intros H Hin. apply includes_In in Hin. each_reading H.
  - rewrite test_after_origin, Hin. now rewrite orb_true_r.
  - rewrite test_after_replace, Hin. now rewrite orb_true_r.
  - rewrite test_after_pattern, Hin. now rewrite orb_true_r.
  - rewrite test_at_end, Hin. now rewrite orb_true_r.
Qed.

(** ** The origin callback *)

Lemma origin_with_holds {R} condition origin (cb : JS.value -> JS.value -> R) :
  condition origin = JS.Normal true ->
  origin_with condition origin cb = JS.Normal (cb JS.VNull (JS.VBool true)).
Proof. unfold origin_with. now intros ->. Qed.


Lemma origin_with_throws {R} condition origin (cb : JS.value -> JS.value -> R) e :
  condition origin = JS.Throw e ->
  origin_with condition origin cb = JS.Throw e.
Proof. unfold origin_with. now intros ->. Qed.

Lemma allowed_under_holds condition origin :
  condition origin = JS.Normal true ->
  verdict_under condition origin = JS.Normal Allowed
  /\ is_allowed_under condition origin = true.
Proof.
  intros H. unfold is_allowed_under, verdict_under.
  rewrite (origin_with_holds _ _ _ H). now split.
Qed.


Lemma at_end_slashed (allowed : list string) (e : string) :
  In e allowed ->
  Cond.test allowed (Some (e ++ "/")) Cond.closed_at_end = JS.Normal true.
Proof.
  intros Hin. rewrite test_at_end, replace_trailing_slash_app.
  apply includes_In in Hin. rewrite Hin. now rewrite !orb_true_r.
Qed.



(** ** Origin admission *)

(** C1. As written, lines 27-28 do not parse, so the file defines no origin
    callback and nothing is let in.  With the parenthesis closed at the end
    of the condition, an allowed-list entry with exactly one ['/'] appended
    is let in: removing that slash gives back the entry, which is in the
    list.  Closed at any of the other three places, the condition does not
    let in the localhost entry with a slash appended. *)
Theorem slashed_entry_admitted :
  Cond.parse_header Cond.lines_27_28 = Cond.SyntaxError
  /\ (forall e, In e allowedOrigins ->
        JS.replace_trailing_slash (e ++ "/") = e
        /\ reading Cond.closed_at_end (Some (e ++ "/")) = JS.Normal true
        /\ verdict_under (reading Cond.closed_at_end) (Some (e ++ "/"))
           = JS.Normal Allowed)
  /\ Forall (fun c => is_allowed_under (reading c) (Some "http://localhost:5173/")
                      = false)
       [ Cond.closed_after_origin; Cond.closed_after_replace;
         Cond.closed_after_pattern ].
Proof.
  split; [exact source_not_parsed|]. split.
  - intros e Hin. split; [apply replace_trailing_slash_app|].
    assert (H : reading Cond.closed_at_end (Some (e ++ "/")) = JS.Normal true)
      by (unfold reading; now apply at_end_slashed).
    split; [exact H | now apply allowed_under_holds].
  - repeat constructor.
Qed.




(** C3. As written, lines 27-28 do not parse, so no request is let in by
    this file.  Wherever the missing parenthesis is put, a request without
    an [Origin] header is let in whatever the allowed list contains:
    [!origin] settles the condition and the callback is called with
    [(null, true)]. *)
Theorem absent_origin_admitted :
  Cond.parse_header Cond.lines_27_28 = Cond.SyntaxError
  /\ forall (allowed : list string) (c : Cond.expr),
       In c Cond.readings ->
       Cond.test allowed None c = JS.Normal true
       /\ is_allowed_under (fun o => Cond.test allowed o c) None = true
       /\ (forall (R : Type) (callback : JS.value -> JS.value -> R),
             origin_with (fun o => Cond.test allowed o c) None callback
             = JS.Normal (callback JS.VNull (JS.VBool true))).
Proof.
  split; [exact source_not_parsed|]. intros allowed c Hc.
  pose proof (test_absent allowed c Hc) as H.
  split; [exact H|]. split.
  - now apply (allowed_under_holds (fun o => Cond.test allowed o c)).
  - intros R callback.
    now apply (origin_with_holds (fun o => Cond.test allowed o c)).
Qed.

(** C4. As written, lines 27-28 do not parse, so no origin is let in by
    this file.  The allowed list is the three configured strings, and
    wherever the missing parenthesis is put, every origin that is literally
    one of them is let in. *)
Theorem listed_origin_admitted :
  Cond.parse_header Cond.lines_27_28 = Cond.SyntaxError
  /\ allowedOrigins = [ "http://localhost:5173";
                        "https://maternal-survey.vercel.app";
                        "https://maternal-survey.vercel.app/" ]
  /\ forall (c : Cond.expr) (o : string),
       In c Cond.readings -> In o allowedOrigins ->
       reading c (Some o) = JS.Normal true
       /\ verdict_under (reading c) (Some o) = JS.Normal Allowed
       /\ is_allowed_under (reading c) (Some o) = true.
Proof.
  split; [exact source_not_parsed|]. split; [reflexivity|].
  intros c o Hc Hin.
  assert (H : reading c (Some o) = JS.Normal true)
    by (unfold reading; now apply test_listed).
  split; [exact H|]. now apply allowed_under_holds.
Qed.

(** C10. As written, lines 27-28 do not parse.  With the parenthesis closed
    at the end of the condition, only one of two trailing slashes is
    removed: for the Vercel origin the result is the list's own
    slash-bearing entry, so the request is let in; for the localhost origin
    the result is in no entry, so the request is refused.  Closed at any of
    the other three places, the condition does not let in the Vercel origin
    with two slashes either. *)
Theorem double_slash_origins :
  Cond.parse_header Cond.lines_27_28 = Cond.SyntaxError
  /\ JS.replace_trailing_slash "https://maternal-survey.vercel.app//"
     = "https://maternal-survey.vercel.app/"
  /\ In "https://maternal-survey.vercel.app/" allowedOrigins
  /\ is_allowed_under (reading Cond.closed_at_end)
       (Some "https://maternal-survey.vercel.app//") = true
  /\ JS.replace_trailing_slash "http://localhost:5173//"
       = "http://localhost:5173/"
  /\ ~ In "http://localhost:5173/" allowedOrigins
  /\ is_allowed_under (reading Cond.closed_at_end)
       (Some "http://localhost:5173//") = false
  /\ verdict_under (reading Cond.closed_at_end) (Some "http://localhost:5173//")
     = JS.Normal (Refused cors_error)
  /\ Forall (fun c => is_allowed_under (reading c)
                        (Some "https://maternal-survey.vercel.app//") = false)
       [ Cond.closed_after_origin; Cond.closed_after_replace;
         Cond.closed_after_pattern ].
Proof.
  split; [exact source_not_parsed|].
  repeat split; try reflexivity.
  - cbn; tauto.
  - cbn. intros [H|[H|[H|[]]]]; discriminate H.
  - repeat constructor.
Qed.

(** ** The CORS middleware in the stack *)

Lemma cors_by_condition condition (r : request) :
  cors (origin_with condition) r
  = match condition (header "origin" (headers r)) with
    | JS.Normal true =>
        match req_method r with
        | OPTIONS => End_ (status optionsSuccessStatus fresh_res)
        | _ => Next
        end
    | JS.Normal false => NextErr cors_error
    | JS.Throw e => NextErr e
    end.
Proof.
  unfold cors, origin_with.
  destruct (condition (header "origin" (headers r))) as [[|]|e]; reflexivity.
Qed.

Lemma handle_unfold condition jp up w (r : request) :
  handle condition jp up w r =
    match condition (header "origin" (headers r)) with
    | JS.Normal true =>
        match req_method r with
        | OPTIONS => Responded (status optionsSuccessStatus fresh_res)
        | _ =>
            match jp (headers r) (body r) with
            | Some e => ErrorHandled e
            | None =>
                match up (headers r) (body r) with
                | Some e => ErrorHandled e
                | None => run (routes w) r
                end
            end
        end
    | JS.Normal false => ErrorHandled cors_error
    | JS.Throw e => ErrorHandled e
    end.
Proof.
  unfold handle, app, corsOptions_origin. cbn [run].
  rewrite cors_by_condition.
  destruct (condition (header "origin" (headers r))) as [[|]|e];
    try reflexivity.
  unfold body_parser.
  destruct (req_method r); try reflexivity;
    destruct (jp (headers r) (body r)); try reflexivity;
    destruct (up (headers r) (body r)); reflexivity.
Qed.

Lemma handle_past_gate condition jp up w (r : request) :
  passes_gate condition jp up r ->
  handle condition jp up w r = run (routes w) r.
Proof.
  intros (Hc & Hm & Hj & Hu). rewrite handle_unfold, Hc, Hj, Hu.
  destruct (req_method r); try reflexivity. contradiction.
Qed.

(** Whatever the condition makes of an origin other than letting it in,
    the request ends in the error handler and no route runs. *)
Lemma not_let_in_no_response condition jp up w (r : request) :
  condition (header "origin" (headers r)) <> JS.Normal true ->
  exists err, handle condition jp up w r = ErrorHandled err.
Proof.
  intros H. rewrite handle_unfold.
  destruct (condition (header "origin" (headers r))) as [[|]|e];
    [contradiction | now exists cors_error | now exists e].
Qed.


(** ** Health and welcome routes *)

Lemma health_route condition jp up w (r : request) :
  req_method r = GET -> path r = "/api/health" -> passes_gate condition jp up r ->
  handle condition jp up w r = Responded (health w r fresh_res).
Proof.
  intros Hm Hp Hg. rewrite (handle_past_gate _ _ _ _ _ Hg).
  unfold routes. cbn [run]. rewrite Hm, Hp. reflexivity.
Qed.

Lemma welcome_route condition jp up w (r : request) :
  req_method r = GET -> path r = "/" -> passes_gate condition jp up r ->
  handle condition jp up w r = Responded (welcome r fresh_res).
Proof.
  intros Hm Hp Hg. rewrite (handle_past_gate _ _ _ _ _ Hg).
  unfold routes. cbn [run]. rewrite Hm, Hp. reflexivity.
Qed.

Lemma plain_get_passes p :
  passes_gate absent_only accept_body accept_body (plain_get p).
Proof. repeat split. discriminate. Qed.

(** C5 (as amended). Whatever the condition of lines 27-28 is, every
    [GET /api/health] request that passes the gate in front of the routes
    is answered with status 200 and the payload
    [{status: "ok", database, version: "1.0.0", timestamp}], where
    [database] is "connected" exactly when [readyState] is 1 and
    "disconnected" otherwise, and [timestamp] is the ISO rendering of the
    clock read for this request.  A disconnected database changes nothing
    else: the status stays 200 and the [status] field stays "ok". *)
Theorem health_reports_database_state condition jp up w (r : request) :
  req_method r = GET ->
  path r = "/api/health" ->
  passes_gate condition jp up r ->
  exists database,
    handle condition jp up w r
      = ok_json (health_payload database (Date.toISOString (now w)))
    /\ (database = "connected" <-> readyState w = 1)
    /\ (database = "disconnected" <-> readyState w <> 1).
Proof.
  intros Hm Hp Hg. rewrite (health_route _ _ _ _ _ Hm Hp Hg).
  exists (if readyState w =? 1 then "connected" else "disconnected").
  split; [reflexivity|].
  destruct (Z.eqb_spec (readyState w) 1) as [E|E]; split; split;
    intros H; try reflexivity; try assumption; try discriminate;
    contradiction.
Qed.

Lemma health_reports_database_state_witness :
  passes_gate absent_only accept_body accept_body (plain_get "/api/health")
  /\ handle absent_only accept_body accept_body db_down (plain_get "/api/health")
     = ok_json (health_payload "disconnected" "2023-11-14T22:13:20.000Z").
Proof.
  split; [apply plain_get_passes|].
  destruct (health_reports_database_state absent_only accept_body accept_body
              db_down (plain_get "/api/health") eq_refl eq_refl
              (plain_get_passes "/api/health"))
    as (database & Hout & _ & Hdown).
  rewrite Hout. rewrite (proj2 Hdown); [reflexivity | discriminate].
Defined.

(** C5 (as stated) fails for a [GET /api/health] request that carries an
    origin outside the allowed list.  As written the file does not parse;
    and wherever the missing parenthesis of lines 27-28 is put, the CORS
    layer, registered first, passes an error on and the health route never
    runs. *)
Lemma health_refused_origin :
  req_method (get_from "https://evil.example" "/api/health") = GET
  /\ path (get_from "https://evil.example" "/api/health") = "/api/health"
  /\ Cond.parse_header Cond.lines_27_28 = Cond.SyntaxError
  /\ Forall (fun c =>
               exists err,
                 handle (reading c) accept_body accept_body db_up
                   (get_from "https://evil.example" "/api/health")
                 = ErrorHandled err)
       Cond.readings.
Proof.
  split; [reflexivity|]. split; [reflexivity|].
  split; [exact source_not_parsed|].
  repeat constructor; eexists; vm_compute; reflexivity.
Qed.

(** C9 (as amended). Whatever the condition of lines 27-28 is, every
    [GET /] request that passes the gate in front of the routes is answered
    with status 200 and one and the same payload, whatever else its headers
    and body hold: a message, version "1.0.0", the endpoint map with
    exactly the keys survey, auth, analytics and advanced bound to the four
    mounted prefixes, and a documentation link. *)
Theorem welcome_is_static condition jp up w (r : request) :
  req_method r = GET ->
  path r = "/" ->
  passes_gate condition jp up r ->
  handle condition jp up w r = ok_json welcome_payload
  /\ keys welcome_payload = ["message"; "version"; "endpoints"; "documentation"]
  /\ field "version" (handle condition jp up w r) = Some (JS.VStr "1.0.0")
  /\ field "endpoints" (handle condition jp up w r)
     = Some (JS.VObj [ ("survey", JS.VStr "/api/v1/responses");
                       ("auth", JS.VStr "/api/v1/auth");
                       ("analytics", JS.VStr "/api/v1/analytics");
                       ("advanced", JS.VStr "/api/v1/adv") ])
  /\ option_map keys (field "endpoints" (handle condition jp up w r))
     = Some ["survey"; "auth"; "analytics"; "advanced"].
Proof.
  intros Hm Hp Hg. rewrite (welcome_route _ _ _ _ _ Hm Hp Hg).
  repeat split.
Qed.

Lemma welcome_is_static_witness :
  passes_gate absent_only accept_body accept_body (plain_get "/")
  /\ handle absent_only accept_body accept_body db_down (plain_get "/")
     = ok_json welcome_payload.
Proof.
  split; [apply plain_get_passes|].
  apply (welcome_is_static absent_only accept_body accept_body db_down
           (plain_get "/") eq_refl eq_refl (plain_get_passes "/")).
Defined.

(** C9 (as stated) fails for a [GET /] request whose [Origin] header is
    outside the allowed list.  As written the file does not parse; and
    wherever the missing parenthesis of lines 27-28 is put, that header
    alone sends the request to the error handler instead of the welcome
    route. *)
Lemma welcome_refused_origin :
  req_method (get_from "https://evil.example" "/") = GET
  /\ path (get_from "https://evil.example" "/") = "/"
  /\ Cond.parse_header Cond.lines_27_28 = Cond.SyntaxError
  /\ Forall (fun c =>
               exists err,
                 handle (reading c) accept_body accept_body db_up
                   (get_from "https://evil.example" "/")
                 = ErrorHandled err)
       Cond.readings.
Proof.
  split; [reflexivity|]. split; [reflexivity|].
  split; [exact source_not_parsed|].
  repeat constructor; eexists; vm_compute; reflexivity.
Qed.

(** The health handler alone: its [status] and [database] fields depend on
    nothing but [readyState]. *)
Lemma health_fields w (req : request) (res : response) :
  field "status" (Responded (health w req res)) = Some (JS.VStr "ok")
  /\ field "database" (Responded (health w req res))
     = Some (JS.VStr (if readyState w =? 1 then "connected" else "disconnected")).
Proof. split; reflexivity. Qed.

Lemma run_routes_clock_free w1 w2 (r : request) :
  readyState w1 = readyState w2 ->
  without_timestamp (run (routes w1) r) = without_timestamp (run (routes w2) r).
Proof.
  intros Hrs. unfold routes. cbn [run].
  repeat match goal with
         | |- context [mount_match ?a ?b] => destruct (mount_match a b); [reflexivity|]
         end.
  destruct (handles_get (req_method r) && route_match "/api/health" (path r)).
  - cbn. now rewrite Hrs.
  - destruct (handles_get (req_method r) && route_match "/" (path r));
      reflexivity.
Qed.

Lemma lookup_remove_key (name k : string) (props : list (string * JS.value)) :
  name <> k -> JS.lookup name (remove_key k props) = JS.lookup name props.
Proof.
  intros Hne. induction props as [|[k' v] rest IH]; [reflexivity|].
  cbn. destruct (String.eqb_spec k k') as [E|E].
  - subst k'. destruct (String.eqb_spec name k); [contradiction | exact IH].
  - cbn. now rewrite IH.
Qed.

Lemma field_without_timestamp (name : string) (o : outcome) :
  name <> "timestamp" -> field name (without_timestamp o) = field name o.
Proof.
  intros Hne. destruct o as [[c [[| | | | |props|]|]]| | |]; try reflexivity.
  cbn. now apply lookup_remove_key.
Qed.

Lemma handle_clock_free condition jp up w1 w2 (r : request) :
  readyState w1 = readyState w2 ->
  without_timestamp (handle condition jp up w1 r)
  = without_timestamp (handle condition jp up w2 r).
Proof.
  intros Hrs. rewrite !handle_unfold.
  destruct (condition (header "origin" (headers r))) as [[|]|e];
    try reflexivity.
  destruct (req_method r); try reflexivity;
    destruct (jp (headers r) (body r)); try reflexivity;
    destruct (up (headers r) (body r)); try reflexivity;
    now apply run_routes_clock_free.
Qed.

(** C8. Two [GET /api/health] calls made while [readyState] stays the same
    agree on [status] and [database]; only [timestamp] can differ.  This
    holds for the handler on any two requests and any two clock readings,
    and, whatever the condition of lines 27-28 is, for the whole stack on a
    repeated request, whose two outcomes are equal once the timestamp is
    set aside. *)
Theorem health_idempotent condition jp up w1 w2 (r r1 r2 : request)
    (res1 res2 : response) :
  readyState w1 = readyState w2 ->
  (exists s d,
      field "status" (Responded (health w1 r1 res1)) = Some s
      /\ field "status" (Responded (health w2 r2 res2)) = Some s
      /\ field "database" (Responded (health w1 r1 res1)) = Some d
      /\ field "database" (Responded (health w2 r2 res2)) = Some d)
  /\ without_timestamp (handle condition jp up w1 r)
     = without_timestamp (handle condition jp up w2 r)
  /\ field "status" (handle condition jp up w1 r)
     = field "status" (handle condition jp up w2 r)
  /\ field "database" (handle condition jp up w1 r)
     = field "database" (handle condition jp up w2 r).
Proof.
  intros Hrs. split.
  - exists (JS.VStr "ok"),
      (JS.VStr (if readyState w1 =? 1 then "connected" else "disconnected")).
    repeat split. cbn. now rewrite Hrs.
  - pose proof (handle_clock_free condition jp up w1 w2 r Hrs) as Hfree.
    repeat split; [exact Hfree | |].
    + rewrite <- (field_without_timestamp "status" (handle condition jp up w1 r)),
        <- (field_without_timestamp "status" (handle condition jp up w2 r))
        by discriminate.
      now rewrite Hfree.
    + rewrite <- (field_without_timestamp "database" (handle condition jp up w1 r)),
        <- (field_without_timestamp "database" (handle condition jp up w2 r))
        by discriminate.
      now rewrite Hfree.
Qed.

Lemma health_idempotent_witness :
  readyState db_up = readyState later_up
  /\ now db_up <> now later_up
  /\ field "database" (Responded (health db_up (plain_get "/api/health") fresh_res))
     = Some (JS.VStr "connected")
  /\ field "database" (Responded (health later_up (plain_get "/api/health") fresh_res))
     = Some (JS.VStr "connected")
  /\ field "database"
       (handle absent_only accept_body accept_body db_up (plain_get "/api/health"))
     = field "database"
         (handle absent_only accept_body accept_body later_up
            (plain_get "/api/health"))
  /\ field "timestamp" (Responded (health db_up (plain_get "/api/health") fresh_res))
     <> field "timestamp"
          (Responded (health later_up (plain_get "/api/health") fresh_res)).
Proof.
  split; [reflexivity|]. split; [discriminate|].
  split; [reflexivity|]. split; [reflexivity|]. split.
  - apply (health_idempotent absent_only accept_body accept_body db_up later_up
             (plain_get "/api/health") (plain_get "/") (plain_get "/")
             fresh_res fresh_res eq_refl).
  - vm_compute. discriminate.
Defined.

(** ** Mounted routers *)

(** Matching a literal pattern against a pathname with a literal head and
    an unknown tail is settled by computation: either the head already
    disagrees with the pattern, or the pattern is used up and the tail
    decides. *)
Ltac match_literal_paths rest :=
  repeat match goal with
    | |- context [mount_match ?pre (?lit ++ rest)] =>
        first [ change (mount_match pre (lit ++ rest)) with (@None string)
              | change (mount_match pre (lit ++ rest)) with (boundary rest) ]
    | |- context [route_match ?pat (?lit ++ rest)] =>
        change (route_match pat (lit ++ rest)) with false
    end.

Lemma routes_under_adv w (r : request) (rest : string) :
  run (routes w) (with_path r ("/api/v1/adv" ++ rest))
  = match boundary rest with
    | Some url => Delegated analyticsRoutes url
    | None => Fallthrough None
    end.
Proof.
  unfold routes. cbn [run with_path path]. match_literal_paths rest.
  destruct (boundary rest); [reflexivity|].
  now rewrite !andb_false_r.
Qed.

Lemma routes_under_analytics w (r : request) (rest : string) :
  run (routes w) (with_path r ("/api/v1/analytics" ++ rest))
  = match boundary rest with
    | Some url => Delegated analyticsRoutes url
    | None => Fallthrough None
    end.
Proof.
  unfold routes. cbn [run with_path path]. match_literal_paths rest.
  destruct (boundary rest); [reflexivity|].
  now rewrite !andb_false_r.
Qed.

(** C7. Both prefixes are mounted on the analytics router.  Whatever the
    condition of lines 27-28 is, a request that passes the gate and whose
    pathname is [/api/v1/adv] or [/api/v1/analytics] followed by the same
    remainder (nothing, or a ['/']-led tail) enters the analytics router
    under either prefix, with the same remaining URL; and every request,
    let in or not, has the same outcome under the two prefixes. *)
Theorem adv_mirrors_analytics condition jp up w (r : request) (rest : string) :
  In (use_at "/api/v1/analytics" analyticsRoutes) (app condition jp up w)
  /\ In (use_at "/api/v1/adv" analyticsRoutes) (app condition jp up w)
  /\ handle condition jp up w (with_path r ("/api/v1/adv" ++ rest))
     = handle condition jp up w (with_path r ("/api/v1/analytics" ++ rest))
  /\ (forall url,
        passes_gate condition jp up r ->
        boundary rest = Some url ->
        handle condition jp up w (with_path r ("/api/v1/adv" ++ rest))
          = Delegated analyticsRoutes url
        /\ handle condition jp up w (with_path r ("/api/v1/analytics" ++ rest))
           = Delegated analyticsRoutes url)
  /\ (passes_gate condition jp up r ->
      boundary rest = None ->
      handle condition jp up w (with_path r ("/api/v1/adv" ++ rest))
        = Fallthrough None
      /\ handle condition jp up w (with_path r ("/api/v1/analytics" ++ rest))
         = Fallthrough None).
Proof.
  split; [cbn; tauto|]. split; [cbn; tauto|].
  split; [|split].
  - rewrite !handle_unfold. cbn [with_path headers body req_method].
    now rewrite routes_under_adv, routes_under_analytics.
  - intros url Hg Hb. rewrite !handle_past_gate by exact Hg.
    rewrite routes_under_adv, routes_under_analytics, Hb. now split.
  - intros Hg Hb. rewrite !handle_past_gate by exact Hg.
    rewrite routes_under_adv, routes_under_analytics, Hb. now split.
Qed.

Lemma adv_mirrors_analytics_witness :
  passes_gate absent_only accept_body accept_body (plain_get "/")
  /\ boundary "/trends/monthly" = Some "/trends/monthly"
  /\ handle absent_only accept_body accept_body db_up
       (with_path (plain_get "/") ("/api/v1/adv" ++ "/trends/monthly"))
     = Delegated analyticsRoutes "/trends/monthly"
  /\ handle absent_only accept_body accept_body db_up
       (with_path (plain_get "/") ("/api/v1/analytics" ++ "/trends/monthly"))
     = Delegated analyticsRoutes "/trends/monthly".
Proof.
  split; [apply plain_get_passes|]. split; [reflexivity|].
  destruct (adv_mirrors_analytics absent_only accept_body accept_body db_up
              (plain_get "/") "/trends/monthly")
    as (_ & _ & _ & Hin & _).
  apply (Hin "/trends/monthly" (plain_get_passes "/") eq_refl).
Defined.

(** ** Fatal faults *)

Lemma exec_exited (p : process) (body : list stmt) (c : Z) :
  exit_code p = Some c -> exec p body = p.
Proof. intros H. destruct body; cbn; now rewrite H. Qed.

Lemma exec_all_exited (callbacks : list (list stmt)) (p : process) (c : Z) :
  exit_code p = Some c -> exec_all p callbacks = p.
Proof.
  induction callbacks as [|cb rest IH]; intros H; [reflexivity|].
  cbn [exec_all]. rewrite (exec_exited p cb c H). now apply IH.
Qed.

(** The body shared by the two handlers, on a live process. *)
Lemma exec_fault_body (p : process) (line : string) :
  exit_code p = None ->
  exec p [console_error line; server_close exit_one]
  = {| trace := trace p ++ [Logged line; CloseRequested];
       listener := match listener p with Listening => Closing | l => l end;
       on_close := on_close p ++ [exit_one];
       exit_code := None |}.
Proof.
  intros H. cbn [exec]. rewrite H. cbn [exec1 exit_code exit_one].
  rewrite H. cbn. rewrite <- app_assoc. reflexivity.
Qed.

(** Running the pending callbacks of a live process: the first one ends
    the process with code 1, the others never run. *)
Lemma exec_all_exit_one (p : process) (callbacks : list (list stmt)) :
  exit_code p = None ->
  callbacks <> [] ->
  Forall (eq exit_one) callbacks ->
  exec_all p callbacks
  = {| trace := trace p ++ [Exited 1]; listener := listener p;
       on_close := on_close p; exit_code := Some 1 |}.
Proof.
  intros Hlive Hne Hall. destruct callbacks as [|cb rest]; [contradiction|].
  inversion Hall as [|? ? Hcb _]; subst. cbn [exec_all].
  erewrite exec_all_exited with (c := 1).
  - cbn. rewrite Hlive. reflexivity.
  - cbn. rewrite Hlive. reflexivity.
Qed.

Lemma announced_snoc (lines : list string) (line : string) :
  announced (lines ++ [line]) = (announced lines ++ [Logged line; CloseRequested])%list.
Proof.
  unfold announced. rewrite flat_map_app. cbn. reflexivity.
Qed.

Lemma booted_well_shaped : well_shaped booted.
Proof.
  unfold well_shaped, booted; cbn. repeat split; try discriminate; auto.
  exists []. reflexivity.
Qed.

Lemma fault_body_well_shaped (p : process) (line : string) :
  well_shaped p -> exit_code p = None ->
  well_shaped (exec p [console_error line; server_close exit_one]).
Proof.
  intros (Htr & Hcode & Hcbs & Hl & Hc & Hd) Hlive.
  rewrite (exec_fault_body p line Hlive).
  unfold well_shaped; cbn. repeat split.
  - destruct Htr as [lines Htr]. rewrite Hlive in Htr.
    exists (lines ++ [line])%list.
    rewrite announced_snoc, Htr, !app_nil_r. reflexivity.
  - now left.
  - apply Forall_app. split; [assumption | now constructor].
  - destruct (listener p); discriminate.
  - destruct (listener p); discriminate.
  - destruct (on_close p); discriminate.
  - destruct (listener p) eqn:E; try discriminate.
    intros _. specialize (Hd eq_refl). congruence.
Qed.

Lemma unhandledRejection_body (reason : JS.value) (body : list stmt) :
  on_unhandledRejection reason = JS.Normal body ->
  exists line, body = [console_error line; server_close exit_one].
Proof.
  unfold on_unhandledRejection.
  destruct (JS.message_of reason) as [m|]; cbn [JS.bind]; [|discriminate].
  destruct (JS.to_string m) as [text|]; cbn [JS.bind]; [|discriminate].
  intros H; inversion H. eexists; reflexivity.
Qed.

Lemma uncaughtException_body (err : JS.value) (body : list stmt) :
  on_uncaughtException err = JS.Normal body ->
  exists line, body = [console_error line; server_close exit_one].
Proof.
  unfold on_uncaughtException.
  destruct (JS.message_of err) as [m|]; cbn [JS.bind]; [|discriminate].
  destruct (JS.to_string m) as [text|]; cbn [JS.bind]; [|discriminate].
  intros H; inversion H. eexists; reflexivity.
Qed.

(** A fault that reaches a listener's body: the body run is one log line
    followed by the close request. *)
Lemma react_fault_body (p p' : process) (ev : event) :
  exit_code p = None -> is_fault ev = true ->
  react p ev = JS.Normal p' ->
  exists line, p' = exec p [console_error line; server_close exit_one].
Proof.
  intros Hlive Hf Hr. unfold react in Hr. rewrite Hlive in Hr.
  destruct ev as [reason|err|]; [| |discriminate].
  - destruct (on_unhandledRejection reason) as [b|e] eqn:E.
    + destruct (unhandledRejection_body _ _ E) as [line ->].
      inversion Hr. now exists line.
    + destruct (on_uncaughtException e) as [b|e'] eqn:E';
        cbn [JS.bind] in Hr; [|discriminate].
      destruct (uncaughtException_body _ _ E') as [line ->].
      inversion Hr. now exists line.
  - destruct (on_uncaughtException err) as [b|e'] eqn:E';
      cbn [JS.bind] in Hr; [|discriminate].
    destruct (uncaughtException_body _ _ E') as [line ->].
    inversion Hr. now exists line.
Qed.

(** Every reaction that completes keeps the shape. *)
Lemma react_well_shaped (p p' : process) (ev : event) :
  well_shaped p -> react p ev = JS.Normal p' -> well_shaped p'.
Proof.
  intros Hp Hr.
  destruct (exit_code p) as [c|] eqn:Hlive.
  { unfold react in Hr. rewrite Hlive in Hr. now inversion Hr; subst. }
  destruct (is_fault ev) eqn:Hf.
  - destruct (react_fault_body p p' ev Hlive Hf Hr) as [line ->].
    now apply fault_body_well_shaped.
  - destruct ev; try discriminate.
    unfold react in Hr. rewrite Hlive in Hr.
    destruct (listener p) eqn:Hl; try (now inversion Hr; subst).
    destruct Hp as (Htr & Hcode & Hcbs & _ & Hc & _).
    destruct (Hc Hl) as [Hne _].
    rewrite exec_all_exit_one in Hr
      by (cbn; first [reflexivity | assumption]).
    cbn in Hr. inversion Hr; subst. unfold well_shaped; cbn.
    destruct Htr as [lines Htr]. rewrite Hlive in Htr.
    repeat split; try discriminate; auto.
    exists lines. rewrite Htr, app_nil_r. reflexivity.
Qed.

Lemma react_all_well_shaped (evs : list event) (p p' : process) :
  well_shaped p -> react_all p evs = JS.Normal p' -> well_shaped p'.
Proof.
  revert p. induction evs as [|ev rest IH]; intros p Hp Hr; cbn in Hr.
  - now inversion Hr; subst.
  - destruct (react p ev) as [q|e] eqn:Hq; cbn in Hr; [|discriminate].
    eapply IH; [|exact Hr]. eapply react_well_shaped; eassumption.
Qed.

(** X14. A fault whose [message] can be read and put in the log line, on
    a process still listening: the line is logged, then the listener is
    asked to close, and once it has closed the process exits with code 1 --
    in that order, from either trigger. *)
Lemma readable_fault_shuts_down (err m : JS.value) (text : string) :
  JS.message_of err = JS.Normal m ->
  JS.to_string m = JS.Normal text ->
  react_all booted [unhandledRejection err; listener_closed]
  = JS.Normal {| trace := [ Logged ("❗ Unhandled Rejection: " ++ text);
                            CloseRequested; Exited 1 ];
                 listener := Closed; on_close := []; exit_code := Some 1 |}
  /\ react_all booted [uncaughtException err; listener_closed]
     = JS.Normal {| trace := [ Logged ("❗ Uncaught Exception: " ++ text);
                               CloseRequested; Exited 1 ];
                    listener := Closed; on_close := []; exit_code := Some 1 |}.
Proof.
  intros Hm Ht. cbn. unfold on_unhandledRejection, on_uncaughtException.
  rewrite Hm. cbn [JS.bind]. rewrite Ht. split; reflexivity.
Qed.

(** X15. No state reached from [booted] has an exit code other than 1, nor is
    the listener back to listening once a fault was handled; the exit, when
    it is there, is the last effect and follows the log lines and close
    requests. *)
Lemma only_exit_one (evs : list event) (p : process) :
  react_all booted evs = JS.Normal p ->
  (exit_code p = None \/ exit_code p = Some 1)
  /\ (trace p <> [] -> listener p <> Listening)
  /\ exists lines,
       trace p = (announced lines
                  ++ match exit_code p with Some c => [Exited c] | None => [] end)%list.
Proof.
  intros Hr.
  destruct (react_all_well_shaped evs booted p booted_well_shaped Hr)
    as (Htr & Hcode & _ & Hl & _ & _).
  repeat split; try assumption.
  intros Hne Hlis. now destruct (Hl Hlis).
Qed.

(** C6, at an uncaught exception that carries no value.  When the thrown
    value is [undefined] or [null], reading [err.message] throws inside the
    [uncaughtException] listener before anything is logged: its body does
    not run, so no line is logged, the listener is not asked to close and
    [process.exit(1)] is never scheduled; the process ends with Node's exit
    code 7 for a failing exception handler.  A rejection that carries no
    value makes the [unhandledRejection] listener throw in the same way;
    that exception goes to the [uncaughtException] listener, which logs it
    (not the rejection) and shuts down with code 1. *)
Theorem valueless_fault_escapes :
  on_uncaughtException JS.VUndefined
    = JS.Throw (JS.TypeError "undefined" "message")
  /\ react booted (uncaughtException JS.VUndefined)
     = JS.Throw (JS.TypeError "undefined" "message")
  /\ exit_status (react booted (uncaughtException JS.VUndefined)) = Some 7
  /\ exit_status (react booted (uncaughtException JS.VNull)) = Some 7
  /\ (forall evs,
        exit_status (react_all booted (uncaughtException JS.VUndefined :: evs))
        = Some 7)
  /\ on_unhandledRejection JS.VUndefined
     = JS.Throw (JS.TypeError "undefined" "message")
  /\ (exists text,
        JS.message_of (JS.TypeError "undefined" "message")
          = JS.Normal (JS.VStr text)
        /\ react_all booted [unhandledRejection JS.VUndefined; listener_closed]
           = JS.Normal
               {| trace := [ Logged ("❗ Uncaught Exception: " ++ text);
                             CloseRequested; Exited 1 ];
                  listener := Closed; on_close := []; exit_code := Some 1 |}).
Proof.
  repeat split. eexists. split; reflexivity.
Qed.

(** ** Sample evaluations *)

Example toISOString_samples :
  Date.toISOString 0 = "1970-01-01T00:00:00.000Z"
  /\ Date.toISOString 1700000000000 = "2023-11-14T22:13:20.000Z"
  /\ Date.toISOString 951782400123 = "2000-02-29T00:00:00.123Z"
  /\ Date.toISOString (-1) = "1969-12-31T23:59:59.999Z"
  /\ Date.toISOString 253402300800000 = "+010000-01-01T00:00:00.000Z".
Proof. repeat split; vm_compute; reflexivity. Qed.

Example replace_trailing_slash_samples :
  JS.replace_trailing_slash "a//" = "a/"
  /\ JS.replace_trailing_slash "/" = ""
  /\ JS.replace_trailing_slash "a/b" = "a/b"
  /\ JS.replace_trailing_slash "" = "".
Proof. repeat split. Qed.

Example number_samples :
  map JS.number_to_string
    [ 0; 5000; -40; 9007199254740993; 2 ^ 60; 2 ^ 64;
      123456789012345680000; 10 ^ 21; 2 ^ 70; 10 ^ 23;
      123456789012345678901234567890; - 10 ^ 22; 10 ^ 400 ]
  = [ "0"; "5000"; "-40"; "9007199254740992"; "1152921504606847000";
      "18446744073709552000"; "123456789012345680000"; "1e+21";
      "1.1805916207174113e+21"; "1e+23"; "1.2345678901234568e+29";
      "-1e+22"; "Infinity" ].
Proof. vm_compute. reflexivity. Qed.

Example to_string_samples :
  map JS.to_string
    [ JS.VUndefined; JS.VNull; JS.VBool true; JS.VNum 42; JS.VStr "x";
      JS.VObj [("message", JS.VStr "m")]; JS.Error "boom"; JS.Error "";
      JS.VObj [("toString", JS.VNum 1)] ]
  = [ JS.Normal "undefined"; JS.Normal "null"; JS.Normal "true";
      JS.Normal "42"; JS.Normal "x"; JS.Normal "[object Object]";
      JS.Normal "Error: boom"; JS.Normal "Error";
      JS.Throw (JS.TypeError_ "Cannot convert object to primitive value") ].
Proof. vm_compute. reflexivity. Qed.

(** The four readings of lines 27-28 on sample origins. *)
Example reading_samples :
  map (fun c =>
         map (reading c)
           [ None; Some ""; Some "http://localhost:5173";
             Some "http://localhost:5173/";
             Some "https://maternal-survey.vercel.app//";
             Some "https://evil.example" ])
      Cond.readings
  = [ [ JS.Normal true; JS.Normal true; JS.Normal true;
        JS.Throw replace_of_boolean; JS.Throw replace_of_boolean;
        JS.Throw replace_of_boolean ];
      [ JS.Normal true; JS.Normal true; JS.Normal true;
        JS.Throw call_of_boolean; JS.Throw call_of_boolean;
        JS.Throw call_of_boolean ];
      [ JS.Normal true; JS.Normal true; JS.Normal true;
        JS.Normal false; JS.Normal false; JS.Normal false ];
      [ JS.Normal true; JS.Normal true; JS.Normal true;
        JS.Normal true; JS.Normal true; JS.Normal false ] ].
Proof. vm_compute. reflexivity. Qed.

Example dispatch_samples :
  handle absent_only accept_body accept_body db_up (plain_get "/api/v1/adv/summary")
    = Delegated analyticsRoutes "/summary"
  /\ handle absent_only accept_body accept_body db_up
       (plain_get "/api/v1/analytics/summary")
     = Delegated analyticsRoutes "/summary"
  /\ handle absent_only accept_body accept_body db_up (plain_get "/api/v1/advanced")
     = Fallthrough None
  /\ handle absent_only accept_body accept_body db_up (plain_get "/api/v1/responses")
     = Delegated surveyRoutes "/"
  /\ handle (reading Cond.closed_at_end) accept_body accept_body db_up
       {| req_method := OPTIONS; path := "/api/v1/auth/login";
          headers := [("origin", "http://localhost:5173")]; body := "" |}
     = Responded {| statusCode := 200; payload := None |}
  /\ handle (reading Cond.closed_after_origin) accept_body accept_body db_up
       (get_from "http://localhost:5173/" "/")
     = ErrorHandled replace_of_boolean
  /\ handle absent_only accept_body (fun _ _ => Some (JS.Error "bad form")) db_up
       (plain_get "/")
     = ErrorHandled (JS.Error "bad form").
Proof. repeat split. Qed.

Example fault_samples :
  react_all booted
    [ uncaughtException (JS.VStr "plain string");
      unhandledRejection (JS.Error "boom");
      listener_closed;
      uncaughtException (JS.Error "too late") ]
  = JS.Normal
      {| trace := [ Logged "❗ Uncaught Exception: undefined"; CloseRequested;
                    Logged "❗ Unhandled Rejection: boom"; CloseRequested;
                    Exited 1 ];
         listener := Closed; on_close := []; exit_code := Some 1 |}.
Proof. reflexivity. Qed.

(** * Further properties *)

(** ** The trailing slash *)

Lemma append_slash_nonempty (s : string) : s ++ "/" <> "".
Proof. destruct s; discriminate. Qed.

(** A string either ends in ['/'], which the replacement removes, or is
    left as it is. *)
Lemma trailing_slash_split (o : string) :
  (exists s, o = s ++ "/" /\ JS.replace_trailing_slash o = s)
  \/ (JS.replace_trailing_slash o = o /\ forall s, o <> s ++ "/").
Proof.
  induction o as [|c o IH].
  - right. split; [reflexivity|]. intros s H. symmetry in H.
    now apply append_slash_nonempty in H.
  - destruct o as [|d o].
    + cbn. destruct (Ascii.eqb_spec c "/") as [->|Hc].
      * left. exists "". now split.
      * right. split; [reflexivity|]. intros [|x s] H; cbn in H.
        -- inversion H. contradiction.
        -- inversion H as [[Hx Hs]]. symmetry in Hs.
           now apply append_slash_nonempty in Hs.
    + change (JS.replace_trailing_slash (String c (String d o)))
        with (String c (JS.replace_trailing_slash (String d o))).
      destruct IH as [(s & Hs & Hr) | (Hr & Hno)].
      * left. exists (String c s). split; [now rewrite Hs | now rewrite Hr].
      * right. rewrite Hr. split; [reflexivity|].
        intros [|x s] H; cbn in H; [discriminate|].
        inversion H as [[Hx Hs]]. now apply Hno in Hs.
Qed.

Lemma length_append_slash (s : string) :
  String.length (s ++ "/") = S (String.length s).
Proof. induction s as [|c s IH]; [reflexivity | cbn; now rewrite IH]. Qed.

(** X1. [replace(/\/$/, '')] removes exactly one final ['/'] and nothing
    else: a string that does not end in ['/'] comes back unchanged, one
    that does comes back one character shorter, so a second trailing
    slash survives. *)
Theorem replace_trailing_slash_once (o : string) :
  (forall s, o = s ++ "/" ->
     JS.replace_trailing_slash o = s
     /\ String.length o = S (String.length (JS.replace_trailing_slash o)))
  /\ ((forall s, o <> s ++ "/") -> JS.replace_trailing_slash o = o)
  /\ JS.replace_trailing_slash ((o ++ "/") ++ "/") = o ++ "/".
Proof.
  split; [|split].
  - intros s ->. rewrite replace_trailing_slash_app.
    split; [reflexivity | apply length_append_slash].
  - intros Hno. destruct (trailing_slash_split o) as [(s & Hs & _) | [Hr _]];
      [now apply Hno in Hs | exact Hr].
  - apply replace_trailing_slash_app.
Qed.

(** ** The readings of lines 27-28 *)

(** X2. Lines 27-28 as written are not the head of an [if] statement: the
    parenthesis opened after [if] is never closed.  Taking any one token
    away does not repair them; adding one [)] does at exactly six places,
    which give four different conditions (the last three places give the
    same text). *)
Theorem lines_27_28_lack_a_parenthesis :
  Cond.parse_header Cond.lines_27_28 = Cond.SyntaxError
  /\ forallb (fun n => negb (Cond.parses (Cond.delete_at n Cond.lines_27_28)))
       (seq 0 (length Cond.lines_27_28)) = true
  /\ filter (fun n => Cond.parses (Cond.closed_at n))
       (seq 0 (S (length Cond.lines_27_28)))
     = [17; 19; 21; 23; 24; 25]%nat
  /\ map (fun n => Cond.parse_header (Cond.closed_at n)) [17; 19; 21; 23; 24; 25]%nat
     = map Cond.Parsed
         [ Cond.closed_after_origin; Cond.closed_after_replace;
           Cond.closed_after_pattern;
           Cond.closed_at_end; Cond.closed_at_end; Cond.closed_at_end ]
  /\ Cond.closed_at 23 = Cond.closed_at 24
  /\ Cond.closed_at 24 = Cond.closed_at 25.
Proof. repeat split; vm_compute; reflexivity. Qed.

(** No entry of the list ends in the word the third reading appends. *)
Lemma no_entry_ends_in_undefined (s : string) :
  ~ In (s ++ "undefined") allowedOrigins.
Proof.
  cbn [In allowedOrigins]. intros [H | [H | [H | []]]];
    repeat (destruct s as [|? s]; cbn in H;
            [discriminate H | first [discriminate H | injection H as _ H]]).
Qed.

Lemma after_pattern_unlisted (o : string) :
  ~ In o allowedOrigins ->
  JS.includes allowedOrigins (Cond.replace_slash_with o "undefined") = false.
Proof.
  intros Hno. unfold Cond.replace_slash_with.
  destruct (String.eqb (JS.replace_trailing_slash o) o).
  - now apply includes_not_In.
  - apply includes_not_In. apply no_entry_ends_in_undefined.
Qed.

Lemma readings_shape (o : string) :
  o <> "" ->
  ~ In o allowedOrigins ->
  reading Cond.closed_after_origin (Some o) = JS.Throw replace_of_boolean
  /\ reading Cond.closed_after_replace (Some o) = JS.Throw call_of_boolean
  /\ reading Cond.closed_after_pattern (Some o) = JS.Normal false
  /\ reading Cond.closed_at_end (Some o)
     = JS.Normal (JS.includes allowedOrigins (JS.replace_trailing_slash o)).
Proof.
  intros Hne Hno. unfold reading.
  rewrite test_after_origin, test_after_replace, test_after_pattern,
    test_at_end.
  rewrite (truthy_string _ Hne), (includes_not_In _ _ Hno),
    (after_pattern_unlisted _ Hno).
  repeat split.
Qed.

(** X3. Wherever the missing parenthesis is put, the four conditions agree
    on origins that are absent, empty or in the list (let in), and differ
    on every other origin: closed after [origin] or after [replace], the
    condition throws a [TypeError]; closed after the pattern, it refuses;
    closed at the end, it lets in exactly those whose text without one
    final slash is in the list. *)
Theorem readings_on_unlisted_origins (o : string) :
  o <> "" ->
  ~ In o allowedOrigins ->
  Forall (fun c => reading c None = JS.Normal true
                   /\ reading c (Some "") = JS.Normal true
                   /\ Forall (fun e => reading c (Some e) = JS.Normal true)
                        allowedOrigins)
    Cond.readings
  /\ (exists msg,
        reading Cond.closed_after_origin (Some o) = JS.Throw (JS.TypeError_ msg))
  /\ (exists msg,
        reading Cond.closed_after_replace (Some o) = JS.Throw (JS.TypeError_ msg))
  /\ reading Cond.closed_after_pattern (Some o) = JS.Normal false
  /\ reading Cond.closed_at_end (Some o)
     = JS.Normal (JS.includes allowedOrigins (JS.replace_trailing_slash o)).
Proof.
  intros Hne Hno. destruct (readings_shape o Hne Hno) as (H1 & H2 & H3 & H4).
  split; [repeat constructor|].
  split; [eexists; exact H1|]. split; [eexists; exact H2|].
  now split.
Qed.

Lemma readings_on_unlisted_origins_witness :
  "http://localhost:5173/" <> ""
  /\ reading Cond.closed_after_pattern (Some "http://localhost:5173/")
     = JS.Normal false
  /\ reading Cond.closed_at_end (Some "http://localhost:5173/") = JS.Normal true.
Proof.
  assert (Hne : "http://localhost:5173/" <> "") by discriminate.
  assert (Hno : ~ In "http://localhost:5173/" allowedOrigins).
  { cbn. intros [H|[H|[H|[]]]]; discriminate H. }
  destruct (readings_on_unlisted_origins "http://localhost:5173/" Hne Hno)
    as (_ & _ & _ & Hp & He).
  split; [exact Hne|]. split; [exact Hp | exact He].
Defined.

Lemma allowed_under_inv condition origin :
  is_allowed_under condition origin = true ->
  condition origin = JS.Normal true.
Proof.
  unfold is_allowed_under, verdict_under, origin_with.
  destruct (condition origin) as [[|]|e]; cbn; [reflexivity | |]; discriminate.
Qed.

(** X4. Wherever the missing parenthesis is put, only six origin values can
    be let in: the empty string, the localhost and Vercel origins, each
    with or without a final slash, and the Vercel origin with two.  No
    other origin passes under any of the four conditions. *)
Theorem no_reading_lets_others_in (c : Cond.expr) (o : string) :
  In c Cond.readings ->
  is_allowed_under (reading c) (Some o) = true ->
  In o [ "";
         "http://localhost:5173";
         "http://localhost:5173/";
         "https://maternal-survey.vercel.app";
         "https://maternal-survey.vercel.app/";
         "https://maternal-survey.vercel.app//" ].
Proof.
  intros Hc Hin.
  destruct (String.eqb_spec o "") as [->|Hne]; [cbn; tauto|].
  assert (Hlisted : In o allowedOrigins -> In o
            [ ""; "http://localhost:5173"; "http://localhost:5173/";
              "https://maternal-survey.vercel.app";
              "https://maternal-survey.vercel.app/";
              "https://maternal-survey.vercel.app//" ]).
  { cbn. intuition. }
  destruct (in_dec string_dec o allowedOrigins) as [Hl|Hno];
    [now apply Hlisted|].
  destruct (readings_shape o Hne Hno) as (H1 & H2 & H3 & H4).
  apply allowed_under_inv in Hin.
  each_reading Hc.
  - rewrite H1 in Hin. discriminate.
  - rewrite H2 in Hin. discriminate.
  - rewrite H3 in Hin. discriminate.
  - rewrite H4 in Hin.
    assert (E : JS.includes allowedOrigins (JS.replace_trailing_slash o) = true)
      by congruence.
    apply includes_In in E.
    destruct (trailing_slash_split o) as [(s & Hs & Hr) | (Hr & _)].
    + rewrite Hr in E. subst o. cbn in E.
      destruct E as [E | [E | [E | []]]]; subst s; cbn; tauto.
    + rewrite Hr in E. contradiction.
Qed.

Lemma no_reading_lets_others_in_witness :
  In Cond.closed_at_end Cond.readings
  /\ is_allowed_under (reading Cond.closed_at_end)
       (Some "https://maternal-survey.vercel.app//") = true
  /\ In "https://maternal-survey.vercel.app//"
       [ ""; "http://localhost:5173"; "http://localhost:5173/";
         "https://maternal-survey.vercel.app";
         "https://maternal-survey.vercel.app/";
         "https://maternal-survey.vercel.app//" ].
Proof.
  assert (Hc : In Cond.closed_at_end Cond.readings) by (cbn; tauto).
  split; [exact Hc|]. split; [reflexivity|].
  apply (no_reading_lets_others_in Cond.closed_at_end
           "https://maternal-survey.vercel.app//" Hc eq_refl).
Defined.

(** ** Preflights, parsers and errors *)

(** X5. Whatever the condition of lines 27-28 is, every [OPTIONS] request
    is settled by the first CORS layer: status 200 without a payload when
    the condition holds of its origin, the CORS error when it does not, the
    condition's own exception when it throws.  Parsers, routers and routes
    are never reached, so no preflight enters a router. *)
Theorem preflight_settled_by_cors condition jp up w (r : request) :
  req_method r = OPTIONS ->
  handle condition jp up w r
  = match condition (header "origin" (headers r)) with
    | JS.Normal true => Responded {| statusCode := 200; payload := None |}
    | JS.Normal false => ErrorHandled cors_error
    | JS.Throw e => ErrorHandled e
    end
  /\ forall c url, handle condition jp up w r <> Delegated c url.
Proof.
  intros Hm. rewrite handle_unfold, Hm.
  destruct (condition (header "origin" (headers r))) as [[|]|e];
    (split; [reflexivity | discriminate]).
Qed.

Lemma preflight_settled_by_cors_witness :
  handle absent_only accept_body accept_body db_up
    {| req_method := OPTIONS; path := "/api/v1/auth/login";
       headers := []; body := "" |}
  = Responded {| statusCode := 200; payload := None |}.
Proof.
  apply (preflight_settled_by_cors absent_only accept_body accept_body db_up
           {| req_method := OPTIONS; path := "/api/v1/auth/login";
              headers := []; body := "" |}
           eq_refl).
Defined.

(** X6. Line 43 changes nothing: whatever the condition of lines 27-28 is,
    with or without the explicit [OPTIONS] layer every request has the same
    outcome, because the CORS layer in front of it never passes a preflight
    on. *)
Theorem options_layer_redundant condition jp up w (r : request) :
  run (app condition jp up w) r = run (app_without_line_43 condition jp up w) r.
Proof.
  unfold app, app_without_line_43, corsOptions_origin. cbn [run].
  rewrite cors_by_condition.
  destruct (condition (header "origin" (headers r))) as [[|]|e];
    try reflexivity.
  destruct (req_method r); reflexivity.
Qed.

(** X7. Whatever the condition of lines 27-28 is, a body the JSON parser
    rejects sends a request that got past the CORS layer to the error
    handler with the parser's error, whatever its path; the form parser's
    error does the same when the JSON parser passed.  When both would
    reject, the JSON parser's error is the one reported. *)
Theorem parser_error_reaches_error_handler condition jp up w (r : request)
    (e : JS.value) :
  condition (header "origin" (headers r)) = JS.Normal true ->
  req_method r <> OPTIONS ->
  (jp (headers r) (body r) = Some e -> handle condition jp up w r = ErrorHandled e)
  /\ (jp (headers r) (body r) = None -> up (headers r) (body r) = Some e ->
      handle condition jp up w r = ErrorHandled e).
Proof.
  intros Hc Hm. rewrite handle_unfold, Hc.
  split.
  - intros ->. destruct (req_method r); try reflexivity. contradiction.
  - intros -> ->. destruct (req_method r); try reflexivity. contradiction.
Qed.

Lemma parser_error_reaches_error_handler_witness :
  handle absent_only
         (fun _ _ => Some (JS.Error "bad json"))
         (fun _ _ => Some (JS.Error "bad form")) db_up
         {| req_method := POST; path := "/api/v1/responses";
            headers := []; body := "{" |}
  = ErrorHandled (JS.Error "bad json").
Proof.
  assert (Hm : POST <> OPTIONS) by discriminate.
  destruct (parser_error_reaches_error_handler absent_only
              (fun _ _ => Some (JS.Error "bad json"))
              (fun _ _ => Some (JS.Error "bad form")) db_up
              {| req_method := POST; path := "/api/v1/responses";
                 headers := []; body := "{" |}
              (JS.Error "bad json") eq_refl Hm) as [Hjson _].
  apply Hjson. reflexivity.
Defined.

Lemma routes_raise_nothing w (r : request) (o : outcome) :
  run (routes w) r = o ->
  (forall e, o <> Fallthrough (Some e)) /\ (forall e, o <> ErrorHandled e).
Proof.
  intros <-. unfold routes. cbn [run].
  repeat match goal with
         | |- context [mount_match ?a ?b] =>
             destruct (mount_match a b); [split; discriminate|]
         end.
  destruct (handles_get (req_method r) && route_match "/api/health" (path r));
    [split; discriminate|].
  destruct (handles_get (req_method r) && route_match "/" (path r));
    split; discriminate.
Qed.

(** X8. No error escapes the error handler: whatever the condition of
    lines 27-28 is, the stack never leaves a pending error to Express'
    default handler.  And the errors the layers of this file hand to the
    error handler are the CORS error, an exception of the condition itself,
    or an error of one of the two body parsers, nothing else. *)
Theorem errors_end_in_error_handler condition jp up w (r : request) :
  (forall e, handle condition jp up w r <> Fallthrough (Some e))
  /\ (forall e, handle condition jp up w r = ErrorHandled e ->
        (e = cors_error
         /\ condition (header "origin" (headers r)) = JS.Normal false)
        \/ condition (header "origin" (headers r)) = JS.Throw e
        \/ jp (headers r) (body r) = Some e
        \/ up (headers r) (body r) = Some e).
Proof.
  rewrite handle_unfold.
  destruct (condition (header "origin" (headers r))) as [[|]|x].
  - pose proof (routes_raise_nothing w r _ eq_refl) as [Hf He].
    destruct (req_method r);
      try (split; [discriminate | intros e H; discriminate H]);
      destruct (jp (headers r) (body r)) as [ej|];
      try (split; [discriminate
                  | intros e H; inversion H; now (right; right; left)]);
      destruct (up (headers r) (body r)) as [eu|];
      try (split; [discriminate
                  | intros e H; inversion H; now (right; right; right)]);
      (split; [exact Hf | intros e H; now apply He in H]).
  - split; [discriminate|]. intros e H. inversion H. now left.
  - split; [discriminate|]. intros e H. inversion H. now (right; left).
Qed.

(** ** Routers and routes *)

(** Two patterns that both start a pathname start one another. *)
Lemma strip_prefix_comparable (a b p r1 r2 : string) :
  strip_prefix a p = Some r1 -> strip_prefix b p = Some r2 ->
  strip_prefix a b <> None \/ strip_prefix b a <> None.
Proof.
  revert b p. induction a as [|x a IH]; intros b p Ha Hb.
  - left. discriminate.
  - destruct b as [|y b]; [right; discriminate|].
    destruct p as [|c p]; [discriminate|]. cbn in Ha, Hb |- *.
    destruct (Ascii.eqb_spec (lower x) (lower c)) as [Exc|]; [|discriminate].
    destruct (Ascii.eqb_spec (lower y) (lower c)) as [Eyc|]; [|discriminate].
    rewrite Exc, Eyc, !Ascii.eqb_refl. eapply IH; eassumption.
Qed.

Lemma boundary_slash (rest url : string) :
  boundary rest = Some url -> exists t, url = String "/" t.
Proof.
  destruct rest as [|c rest]; cbn.
  - intros H; inversion H. now exists "".
  - destruct c as [[] [] [] [] [] [] [] []]; try discriminate.
    destruct rest as [|d rest].
    + intros H; inversion H. now exists "".
    + destruct d as [[] [] [] [] [] [] [] []];
        intros H; inversion H; eexists; reflexivity.
Qed.

(** X9. The five mounted prefixes exclude one another: a pathname is under
    at most one of them, so the order in which the routers are mounted
    does not decide which router a request enters. *)
Theorem mounted_prefixes_exclusive w (p : string)
    (pre1 pre2 : string) (c1 c2 : collaborator) (url1 url2 : string) :
  In (pre1, c1) (mount_points (routes w)) ->
  In (pre2, c2) (mount_points (routes w)) ->
  mount_match pre1 p = Some url1 ->
  mount_match pre2 p = Some url2 ->
  pre1 = pre2 /\ c1 = c2 /\ url1 = url2.
Proof.
  intros H1 H2 M1 M2.
  assert (Hcmp : strip_prefix pre1 pre2 <> None \/ strip_prefix pre2 pre1 <> None).
  { unfold mount_match in M1, M2.
    destruct (strip_prefix pre1 p) as [r1|] eqn:E1; [|discriminate].
    destruct (strip_prefix pre2 p) as [r2|] eqn:E2; [|discriminate].
    eapply strip_prefix_comparable; eassumption. }
  cbn in H1, H2.
  destruct H1 as [H1|[H1|[H1|[H1|[H1|[]]]]]];
    destruct H2 as [H2|[H2|[H2|[H2|[H2|[]]]]]];
    inversion H1; inversion H2; subst;
    try (rewrite M1 in M2; inversion M2; now repeat split);
    exfalso; destruct Hcmp as [Hc|Hc]; apply Hc; reflexivity.
Qed.

Lemma mounted_prefixes_exclusive_witness :
  In ("/api/v1/adv", analyticsRoutes) (mount_points (routes db_up))
  /\ mount_match "/api/v1/adv" "/API/v1/ADV/trends" = Some "/trends"
  /\ "/api/v1/adv" = "/api/v1/adv" /\ analyticsRoutes = analyticsRoutes
  /\ "/trends" = "/trends".
Proof.
  assert (Hin : In ("/api/v1/adv", analyticsRoutes) (mount_points (routes db_up)))
    by (cbn; tauto).
  split; [exact Hin|]. split; [reflexivity|].
  apply (mounted_prefixes_exclusive db_up "/API/v1/ADV/trends"
           "/api/v1/adv" "/api/v1/adv" analyticsRoutes analyticsRoutes
           "/trends" "/trends" Hin Hin eq_refl eq_refl).
Defined.

Lemma routes_delegate w (r : request) (c : collaborator) (url : string) :
  run (routes w) r = Delegated c url
  <-> mounted (routes w) (path r) = Some (c, url).
Proof.
  unfold routes. cbn [run mounted].
  repeat match goal with
         | |- context [mount_match ?a ?b] =>
             destruct (mount_match a b);
               [split; intros H; inversion H; reflexivity|]
         end.
  destruct (handles_get (req_method r) && route_match "/api/health" (path r));
    [split; discriminate|].
  destruct (handles_get (req_method r) && route_match "/" (path r));
    split; discriminate.
Qed.

Lemma delegated_iff condition jp up w (r : request) (c : collaborator)
    (url : string) :
  handle condition jp up w r = Delegated c url
  <-> passes_gate condition jp up r
      /\ mounted (routes w) (path r) = Some (c, url).
Proof.
  split.
  - rewrite handle_unfold. unfold passes_gate.
    destruct (condition (header "origin" (headers r))) as [[|]|e];
      try discriminate.
    destruct (req_method r); try discriminate;
      destruct (jp (headers r) (body r)); try discriminate;
      destruct (up (headers r) (body r)); try discriminate;
      intros H; apply routes_delegate in H;
      (repeat split; [discriminate | exact H]).
  - intros [Hg Hm]. rewrite (handle_past_gate _ _ _ _ _ Hg).
    now apply routes_delegate.
Qed.

(** X10. Whatever the condition of lines 27-28 is, a request enters a
    router exactly when it passes the gate and its pathname is under that
    router's prefix; the URL the router then sees always starts with
    ['/']. *)
Theorem router_entered_iff condition jp up w (r : request) (c : collaborator)
    (url : string) :
  (handle condition jp up w r = Delegated c url
   <-> passes_gate condition jp up r
       /\ mounted (routes w) (path r) = Some (c, url))
  /\ (handle condition jp up w r = Delegated c url ->
      exists t, url = String "/" t).
Proof.
  split; [apply delegated_iff|].
  intros H. apply delegated_iff in H. destruct H as [_ H].
  unfold routes in H. cbn [mounted] in H.
  repeat match type of H with
         | context [mount_match ?a ?b] =>
             let E := fresh "E" in
             destruct (mount_match a b) eqn:E;
               [ inversion H; subst; unfold mount_match in E;
                 destruct (strip_prefix a b); [|discriminate];
                 eapply boundary_slash; eassumption |]
         end.
  discriminate.
Qed.

(** X11. Each of the five prefixes leads to the router mounted on it:
    whatever the condition of lines 27-28 is, a request that passes the
    gate and whose pathname is the prefix followed by nothing or by a
    ['/']-led remainder enters that router. *)
Theorem each_prefix_enters_its_router condition jp up w (r : request)
    (pre rest url : string) (c : collaborator) :
  In (pre, c) (mount_points (routes w)) ->
  passes_gate condition jp up r ->
  boundary rest = Some url ->
  handle condition jp up w (with_path r (pre ++ rest)) = Delegated c url.
Proof.
  intros Hin Hg Hb.
  apply delegated_iff. split; [exact Hg|].
  cbn [with_path path]. cbn in Hin.
  destruct Hin as [H|[H|[H|[H|[H|[]]]]]]; inversion H; subst;
    unfold routes; cbn [mounted]; match_literal_paths rest;
    now rewrite Hb.
Qed.

Lemma each_prefix_enters_its_router_witness :
  handle absent_only accept_body accept_body db_up
    (with_path (plain_get "/") ("/api/v1/surveys" ++ "/42/answers"))
  = Delegated responseRoute "/42/answers".
Proof.
  apply (each_prefix_enters_its_router absent_only accept_body accept_body db_up
           (plain_get "/") "/api/v1/surveys" "/42/answers" "/42/answers"
           responseRoute).
  - cbn; tauto.
  - apply plain_get_passes.
  - reflexivity.
Defined.

Lemma route_match_strips (pattern p : string) :
  route_match pattern p = true ->
  exists rest, strip_prefix (JS.replace_trailing_slash pattern) p = Some rest.
Proof.
  unfold route_match.
  destruct (strip_prefix (JS.replace_trailing_slash pattern) p) as [rest|];
    [|discriminate].
  intros _. now exists rest.
Qed.

(** A pathname the health route matches is under no mounted prefix. *)
Lemma health_path_unmounted w (p pre : string) (c : collaborator) :
  route_match "/api/health" p = true ->
  In (pre, c) (mount_points (routes w)) ->
  mount_match pre p = None.
Proof.
  intros Hr Hin. apply route_match_strips in Hr. destruct Hr as [rest Hr].
  change (JS.replace_trailing_slash "/api/health") with "/api/health" in Hr.
  unfold mount_match.
  destruct (strip_prefix pre p) as [rest'|] eqn:E; [|reflexivity].
  exfalso.
  destruct (strip_prefix_comparable _ _ _ _ _ Hr E) as [Hc|Hc];
    cbn in Hin;
    destruct Hin as [H|[H|[H|[H|[H|[]]]]]]; inversion H; subst;
    apply Hc; reflexivity.
Qed.

Lemma root_path_cases (p : string) :
  route_match "/" p = true -> p = "" \/ p = "/".
Proof.
  unfold route_match. cbn.
  destruct p as [|c p]; [now left|].
  destruct c as [[] [] [] [] [] [] [] []]; try discriminate.
  destruct p; [now right | discriminate].
Qed.

Lemma routes_on_health_path w (r : request) :
  route_match "/api/health" (path r) = true ->
  run (routes w) r
  = if handles_get (req_method r) then Responded (health w r fresh_res)
    else Fallthrough None.
Proof.
  intros Hr. unfold routes. cbn [run].
  rewrite !(health_path_unmounted w (path r) _ _ Hr) by (cbn; tauto).
  rewrite Hr, andb_true_r.
  destruct (handles_get (req_method r)); [reflexivity|].
  cbn [andb]. reflexivity.
Qed.

Lemma routes_on_root_path w (r : request) :
  route_match "/" (path r) = true ->
  run (routes w) r
  = if handles_get (req_method r) then Responded (welcome r fresh_res)
    else Fallthrough None.
Proof.
  intros Hr. unfold routes. cbn [run].
  destruct (root_path_cases _ Hr) as [-> | ->];
    destruct (handles_get (req_method r)); reflexivity.
Qed.

(** X12. The health route answers [GET] and [HEAD] alike, on every
    spelling of its path that Express' matching accepts (any letter case,
    with or without one final slash); no mounted router shadows it.  The
    payload is the one of [GET /api/health].  This holds whatever the
    condition of lines 27-28 is, for requests that pass the gate. *)
Theorem health_route_variants condition jp up w (r : request) :
  handles_get (req_method r) = true ->
  route_match "/api/health" (path r) = true ->
  passes_gate condition jp up r ->
  handle condition jp up w r
  = ok_json (health_payload
               (if readyState w =? 1 then "connected" else "disconnected")
               (Date.toISOString (now w))).
Proof.
  intros Hm Hr Hg. rewrite (handle_past_gate _ _ _ _ _ Hg).
  rewrite (routes_on_health_path w r Hr), Hm. reflexivity.
Qed.

Lemma health_route_variants_witness :
  handle absent_only accept_body accept_body db_down
    {| req_method := HEAD; path := "/API/Health/"; headers := []; body := "" |}
  = ok_json (health_payload "disconnected" "2023-11-14T22:13:20.000Z").
Proof.
  apply (health_route_variants absent_only accept_body accept_body db_down
           {| req_method := HEAD; path := "/API/Health/";
              headers := []; body := "" |} eq_refl eq_refl).
  repeat split. discriminate.
Defined.

(** X13. Only [GET] and [HEAD] are routed on the two paths of this file:
    whatever the condition of lines 27-28 is, a request with any other
    method for the health or the welcome path that passes the gate is taken
    by no layer of the stack; with [GET] or [HEAD] the welcome path is
    answered with the static payload. *)
Theorem other_methods_not_routed condition jp up w (r : request) :
  passes_gate condition jp up r ->
  route_match "/api/health" (path r) = true \/ route_match "/" (path r) = true ->
  (handles_get (req_method r) = false ->
   handle condition jp up w r = Fallthrough None)
  /\ (handles_get (req_method r) = true ->
      route_match "/" (path r) = true ->
      handle condition jp up w r = ok_json welcome_payload).
Proof.
  intros Hg Hr. rewrite (handle_past_gate _ _ _ _ _ Hg). split.
  - intros Hm. destruct Hr as [Hr|Hr].
    + now rewrite (routes_on_health_path w r Hr), Hm.
    + now rewrite (routes_on_root_path w r Hr), Hm.
  - intros Hm Hroot. now rewrite (routes_on_root_path w r Hroot), Hm.
Qed.

Lemma other_methods_not_routed_witness :
  handle absent_only accept_body accept_body db_up
    {| req_method := POST; path := "/api/health"; headers := []; body := "" |}
  = Fallthrough None.
Proof.
  assert (Hg : passes_gate absent_only accept_body accept_body
                 {| req_method := POST; path := "/api/health";
                    headers := []; body := "" |}).
  { repeat split. discriminate. }
  destruct (other_methods_not_routed absent_only accept_body accept_body db_up
              {| req_method := POST; path := "/api/health";
                 headers := []; body := "" |} Hg (or_introl eq_refl))
    as [Hother _].
  apply Hother. reflexivity.
Defined.

(** ** Fault handling over event sequences *)

Lemma readable_fault_witness :
  JS.message_of (JS.Error "boom") = JS.Normal (JS.VStr "boom")
  /\ JS.to_string (JS.VStr "boom") = JS.Normal "boom"
  /\ react_all booted [unhandledRejection (JS.Error "boom"); listener_closed]
     = JS.Normal {| trace := [ Logged "❗ Unhandled Rejection: boom";
                               CloseRequested; Exited 1 ];
                    listener := Closed; on_close := []; exit_code := Some 1 |}.
Proof.
  split; [reflexivity|]. split; [reflexivity|].
  apply (readable_fault_shuts_down (JS.Error "boom") (JS.VStr "boom") "boom"
           eq_refl eq_refl).
Defined.

Lemma only_exit_one_witness :
  react_all booted
    [ uncaughtException (JS.Error "first");
      unhandledRejection (JS.Error "second");
      listener_closed ]
  = JS.Normal {| trace := [ Logged "❗ Uncaught Exception: first";
                            CloseRequested;
                            Logged "❗ Unhandled Rejection: second";
                            CloseRequested; Exited 1 ];
                 listener := Closed; on_close := []; exit_code := Some 1 |}
  /\ (Some 1 = None \/ Some 1 = Some 1).
Proof.
  split; [reflexivity|].
  exact (proj1 (only_exit_one
                  [ uncaughtException (JS.Error "first");
                    unhandledRejection (JS.Error "second");
                    listener_closed ]
                  {| trace := [ Logged "❗ Uncaught Exception: first";
                                CloseRequested;
                                Logged "❗ Unhandled Rejection: second";
                                CloseRequested; Exited 1 ];
                     listener := Closed; on_close := [];
                     exit_code := Some 1 |} eq_refl)).
Defined.

(** An exception of the [unhandledRejection] listener is an error object
    the [uncaughtException] listener can render. *)
Lemma rejection_listener_rethrown (reason e : JS.value) :
  on_unhandledRejection reason = JS.Throw e ->
  exists body, on_uncaughtException e = JS.Normal body.
Proof.
  unfold on_unhandledRejection.
  destruct reason as [| | | | |props|]; cbn; try discriminate.
  - intros H; inversion H. eexists; reflexivity.
  - intros H; inversion H. eexists; reflexivity.
  - destruct (JS.lookup "message" props) as [m|]; cbn; [|discriminate].
    destruct m as [| |[|]| | |props'|]; cbn; try discriminate.
    destruct (JS.lookup "toString" props'); cbn; [|discriminate].
    intros H; inversion H. eexists; reflexivity.
Qed.

(** A fault on a live process either reaches a listener's body, or is an
    uncaught exception that listener cannot render. *)
Lemma react_fault_cases (p : process) (ev : event) :
  exit_code p = None -> is_fault ev = true ->
  if breaks_listener ev
  then exists e, react p ev = JS.Throw e
  else exists p', react p ev = JS.Normal p'.
Proof.
  intros Hlive Hf. unfold react. rewrite Hlive.
  destruct ev as [reason|err|]; [| |discriminate]; cbn [breaks_listener].
  - destruct (on_unhandledRejection reason) as [b|e] eqn:E;
      [eexists; reflexivity|].
    destruct (rejection_listener_rethrown _ _ E) as [body ->].
    eexists; reflexivity.
  - unfold unrenderable.
    destruct (on_uncaughtException err) as [b|e]; eexists; reflexivity.
Qed.

Lemma faults_keep_alive (evs : list event) (p0 p : process) :
  exit_code p0 = None ->
  forallb is_fault evs = true ->
  react_all p0 evs = JS.Normal p ->
  exit_code p = None
  /\ (listener p0 <> Listening \/ evs <> [] -> listener p <> Listening).
Proof.
  revert p0. induction evs as [|ev rest IH]; intros p0 Hlive Hall Hr.
  - cbn in Hr. inversion Hr; subst. split; [assumption|].
    intros [H|H]; [assumption | contradiction].
  - cbn [forallb] in Hall. apply andb_true_iff in Hall as [Hev Hrest].
    cbn [react_all] in Hr.
    destruct (react p0 ev) as [q|e] eqn:Hq; cbn in Hr; [|discriminate].
    assert (Hq' : exit_code q = None /\ listener q <> Listening).
    { destruct (react_fault_body p0 q ev Hlive Hev Hq) as [line ->].
      rewrite exec_fault_body by exact Hlive. cbn.
      split; [reflexivity | destruct (listener p0); discriminate]. }
    destruct Hq' as [Hqlive Hql].
    destruct (IH q Hqlive Hrest Hr) as [Hp Hl].
    split; [exact Hp|]. intros _. apply Hl. now left.
Qed.

Lemma faults_complete (evs : list event) (p0 : process) :
  exit_code p0 = None ->
  forallb is_fault evs = true ->
  existsb breaks_listener evs = false ->
  exists p, react_all p0 evs = JS.Normal p.
Proof.
  revert p0. induction evs as [|ev rest IH]; intros p0 Hlive Hall Hb.
  - now exists p0.
  - cbn [forallb] in Hall. apply andb_true_iff in Hall as [Hev Hrest].
    cbn [existsb] in Hb. apply orb_false_iff in Hb as [Hbev Hbrest].
    pose proof (react_fault_cases p0 ev Hlive Hev) as Hc. rewrite Hbev in Hc.
    destruct Hc as [q Hq]. cbn [react_all]. rewrite Hq. cbn [JS.bind].
    destruct (react_fault_body p0 q ev Hlive Hev Hq) as [line ->].
    apply IH; try assumption.
    now rewrite exec_fault_body by exact Hlive.
Qed.

Lemma faults_break (evs : list event) (p0 : process) :
  exit_code p0 = None ->
  forallb is_fault evs = true ->
  existsb breaks_listener evs = true ->
  exists e, react_all p0 evs = JS.Throw e.
Proof.
  revert p0. induction evs as [|ev rest IH]; intros p0 Hlive Hall Hb;
    [discriminate|].
  cbn [forallb] in Hall. apply andb_true_iff in Hall as [Hev Hrest].
  pose proof (react_fault_cases p0 ev Hlive Hev) as Hc.
  cbn [react_all]. destruct (breaks_listener ev) eqn:Hbev.
  - destruct Hc as [e ->]. now exists e.
  - destruct Hc as [q Hq]. rewrite Hq. cbn [JS.bind].
    destruct (react_fault_body p0 q ev Hlive Hev Hq) as [line ->].
    apply IH; try assumption.
    + now rewrite exec_fault_body by exact Hlive.
    + cbn [existsb] in Hb. now rewrite Hbev in Hb.
Qed.

(** X16. The handlers never end the process before the listener reports
    that it closed: as long as every uncaught exception carries a value the
    listener can render, however many rejections and exceptions are
    handled, the process is still running, with the listener closing and no
    exit among its effects.  An uncaught exception the listener cannot
    render (such as [undefined] or [null]) ends the run at once, with
    Node's exit code 7 and not through [process.exit(1)]. *)
Theorem no_exit_before_listener_closed (evs : list event) :
  forallb is_fault evs = true ->
  evs <> [] ->
  (existsb breaks_listener evs = false ->
   exists p,
     react_all booted evs = JS.Normal p
     /\ exit_code p = None
     /\ listener p = Closing
     /\ forallb (fun e => negb (exits e)) (trace p) = true)
  /\ (existsb breaks_listener evs = true ->
      (exists e, react_all booted evs = JS.Throw e)
      /\ exit_status (react_all booted evs) = Some 7).
Proof.
  intros Hall Hne. split.
  - intros Hb.
    destruct (faults_complete evs booted eq_refl Hall Hb) as [p Hr].
    exists p. split; [exact Hr|].
    destruct (faults_keep_alive evs booted p eq_refl Hall Hr) as [Hlive Hl].
    destruct (react_all_well_shaped evs booted p booted_well_shaped Hr)
      as ([lines Htr] & _ & _ & _ & _ & Hclosed).
    split; [exact Hlive|]. split.
    + destruct (listener p) eqn:E; [|reflexivity|].
      * exfalso. apply Hl; [now right | reflexivity].
      * specialize (Hclosed eq_refl). congruence.
    + rewrite Htr, Hlive, app_nil_r. clear.
      induction lines as [|l lines IH]; [reflexivity | exact IH].
  - intros Hb. destruct (faults_break evs booted eq_refl Hall Hb) as [e He].
    split; [now exists e|]. now rewrite He.
Qed.

Lemma no_exit_before_listener_closed_witness :
  (exists p,
     react_all booted [ unhandledRejection JS.VUndefined;
                        uncaughtException (JS.Error "bang") ] = JS.Normal p
     /\ exit_code p = None
     /\ listener p = Closing
     /\ forallb (fun e => negb (exits e)) (trace p) = true)
  /\ exit_status (react_all booted [ uncaughtException (JS.Error "bang");
                                     uncaughtException JS.VNull ]) = Some 7.
Proof.
  split.
  - apply (no_exit_before_listener_closed
             [ unhandledRejection JS.VUndefined;
               uncaughtException (JS.Error "bang") ] eq_refl).
    + discriminate.
    + reflexivity.
  - apply (no_exit_before_listener_closed
             [ uncaughtException (JS.Error "bang");
               uncaughtException JS.VNull ] eq_refl).
    + discriminate.
    + reflexivity.
Defined.

(** X17. Once a fault handler has run, the listener's close event ends the
    process with exit code 1, however many faults were handled before
    it. *)
Theorem close_after_fault_exits (evs : list event) (p : process) :
  react_all booted evs = JS.Normal p ->
  trace p <> [] ->
  exists p',
    react p listener_closed = JS.Normal p'
    /\ exit_code p' = Some 1
    /\ listener p' = Closed.
Proof.
  intros Hr Hne.
  destruct (react_all_well_shaped evs booted p booted_well_shaped Hr)
    as (_ & Hcode & Hcbs & Hlis & Hclosing & Hclosed).
  unfold react. destruct (exit_code p) as [c|] eqn:Hlive.
  - exists p. destruct Hcode as [H|H]; [discriminate|]. inversion H; subst.
    repeat split; try assumption.
    destruct (listener p) eqn:E; [|exfalso|reflexivity].
    + now destruct (Hlis eq_refl).
    + destruct (Hclosing eq_refl) as [_ H']. discriminate.
  - destruct (listener p) eqn:E.
    + now destruct (Hlis eq_refl).
    + destruct (Hclosing eq_refl) as [Hcb _].
      rewrite exec_all_exit_one
        by (cbn; first [reflexivity | assumption]).
      eexists. repeat split.
    + specialize (Hclosed eq_refl). discriminate.
Qed.

Lemma close_after_fault_exits_witness :
  exists p',
    react {| trace := [ Logged "❗ Uncaught Exception: bang"; CloseRequested ];
             listener := Closing; on_close := [exit_one]; exit_code := None |}
          listener_closed = JS.Normal p'
    /\ exit_code p' = Some 1
    /\ listener p' = Closed.
Proof.
  apply (close_after_fault_exits [uncaughtException (JS.Error "bang")] _ eq_refl).
  discriminate.
Defined.

(** X18. A thrown or rejected primitive loses its text: strings, numbers
    and booleans have no [message], so the handler logs the word
    "undefined" in its place, and then shuts down as for any fault. *)
Theorem primitive_fault_logs_undefined (err : JS.value) :
  (exists b, err = JS.VBool b) \/ (exists n, err = JS.VNum n)
  \/ (exists s, err = JS.VStr s) ->
  react booted (uncaughtException err)
  = JS.Normal {| trace := [ Logged "❗ Uncaught Exception: undefined";
                            CloseRequested ];
                 listener := Closing; on_close := [exit_one];
                 exit_code := None |}
  /\ react booted (unhandledRejection err)
     = JS.Normal {| trace := [ Logged "❗ Unhandled Rejection: undefined";
                               CloseRequested ];
                    listener := Closing; on_close := [exit_one];
                    exit_code := None |}.
Proof.
  intros [[b ->] | [[n ->] | [s ->]]]; split; reflexivity.
Qed.

Lemma primitive_fault_logs_undefined_witness :
  react booted (uncaughtException (JS.VStr "disk full"))
  = JS.Normal {| trace := [ Logged "❗ Uncaught Exception: undefined";
                            CloseRequested ];
                 listener := Closing; on_close := [exit_one];
                 exit_code := None |}.
Proof.
  apply (primitive_fault_logs_undefined (JS.VStr "disk full")).
  right; right. now exists "disk full".
Defined.

(** ** Server setup *)

(** X19. The port is 5000 exactly when [PORT] is unset or empty; any other
    text is taken as it stands, as a string and without a numeric check
    (so ["0"] stays ["0"], being a non-empty string).  The mode label
    falls back to "development" in the same way. *)
Theorem port_and_mode_defaults (env : string -> option string) :
  (PORT env = JS.VNum 5000 <-> env "PORT" = None \/ env "PORT" = Some "")
  /\ (forall s, env "PORT" = Some s -> s <> "" -> PORT env = JS.VStr s)
  /\ (env "NODE_ENV" = None \/ env "NODE_ENV" = Some "" ->
      mode_label env = JS.VStr "development")
  /\ (forall s, env "NODE_ENV" = Some s -> s <> "" -> mode_label env = JS.VStr s).
Proof.
  unfold PORT, mode_label, or_else, of_env.
  repeat split.
  - destruct (env "PORT") as [s|]; [|now left].
    cbn. destruct (String.eqb_spec s "") as [->|Hs]; cbn;
      [now right | discriminate].
  - intros [-> | ->]; reflexivity.
  - intros s -> Hs. now rewrite truthy_string.
  - intros [-> | ->]; reflexivity.
  - intros s -> Hs. now rewrite truthy_string.
Qed.

(** ** What the stack answers itself *)

Lemma routes_not_found w (r : request) :
  run (routes w) r = Fallthrough None
  <-> mounted (routes w) (path r) = None
      /\ handles_get (req_method r)
         && (route_match "/api/health" (path r) || route_match "/" (path r))
         = false.
Proof.
  unfold routes. cbn [run mounted].
  repeat match goal with
         | |- context [mount_match ?a ?b] =>
             destruct (mount_match a b);
               [split; [discriminate | intros [H _]; discriminate H]|]
         end.
  destruct (handles_get (req_method r)); cbn [andb].
  - destruct (route_match "/api/health" (path r)); cbn [orb];
      [split; [discriminate | intros [_ H]; discriminate H]|].
    destruct (route_match "/" (path r));
      [split; [discriminate | intros [_ H]; discriminate H]|].
    now split.
  - now split.
Qed.

(** X20. Whatever the condition of lines 27-28 is, a request runs off
    the end of the stack with no layer of this file having taken it -- no
    router entered, no route answering, no error raised -- exactly when it
    passes the gate, its pathname is under none of the mounted prefixes,
    and it is not a [GET] or [HEAD] for the health or welcome path. *)
Theorem not_found_iff condition jp up w (r : request) :
  handle condition jp up w r = Fallthrough None
  <-> passes_gate condition jp up r
      /\ mounted (routes w) (path r) = None
      /\ handles_get (req_method r)
         && (route_match "/api/health" (path r) || route_match "/" (path r))
         = false.
Proof.
  split.
  - rewrite handle_unfold. unfold passes_gate. intros H.
    destruct (condition (header "origin" (headers r))) as [[|]|e];
      try discriminate.
    assert (Hm : req_method r <> OPTIONS)
      by (intros E; rewrite E in H; discriminate).
    destruct (jp (headers r) (body r));
      [destruct (req_method r); discriminate|].
    destruct (up (headers r) (body r));
      [destruct (req_method r); discriminate|].
    assert (Hrun : run (routes w) r = Fallthrough None)
      by (destruct (req_method r); first [exact H | contradiction]).
    apply routes_not_found in Hrun. destruct Hrun as [H1 H2].
    repeat split; assumption.
  - intros (Hg & Hm & Hr). rewrite (handle_past_gate _ _ _ _ _ Hg).
    apply routes_not_found. now split.
Qed.

(** X21. Whatever this file answers itself carries status 200: whatever
    the condition of lines 27-28 is, a response written by the stack is the
    empty preflight answer, the health payload or the welcome payload,
    never an error status. *)
Theorem own_responses_are_200 condition jp up w (r : request) (res : response) :
  handle condition jp up w r = Responded res ->
  statusCode res = 200
  /\ (payload res = None /\ req_method r = OPTIONS
      \/ Responded res = Responded (health w r fresh_res)
      \/ Responded res = ok_json welcome_payload).
Proof.
  rewrite handle_unfold.
  destruct (condition (header "origin" (headers r))) as [[|]|e];
    try discriminate.
  assert (Hroutes : run (routes w) r = Responded res ->
            statusCode res = 200
            /\ (payload res = None /\ req_method r = OPTIONS
                \/ Responded res = Responded (health w r fresh_res)
                \/ Responded res = ok_json welcome_payload)).
  { unfold routes. cbn [run].
    repeat match goal with
           | |- context [mount_match ?a ?b] =>
               destruct (mount_match a b); [discriminate|]
           end.
    destruct (handles_get (req_method r) && route_match "/api/health" (path r)).
    - intros H; inversion H; subst. split; [reflexivity | now right; left].
    - destruct (handles_get (req_method r) && route_match "/" (path r));
        [|discriminate].
      intros H; inversion H; subst. split; [reflexivity | now right; right]. }
  destruct (req_method r) eqn:Hm;
    try (destruct (jp (headers r) (body r)); [discriminate|];
         destruct (up (headers r) (body r)); [discriminate|];
         exact Hroutes).
  intros H; inversion H; subst. split; [reflexivity | now left].
Qed.

Lemma own_responses_are_200_witness :
  statusCode {| statusCode := 200; payload := None |} = 200.
Proof.
  apply (own_responses_are_200 absent_only accept_body accept_body db_up
           {| req_method := OPTIONS; path := "/anything";
              headers := []; body := "" |}
           {| statusCode := 200; payload := None |} eq_refl).
Defined.
